(** * The list/todo synchronizer of [src/App.tsx]

    The component keeps its data in React state ([lists], [activeListId],
    [isInitialized], [isCreatingList]).  Every function declared inside the
    component is a closure over the values of one render; a [set...] call does
    not change what the closure sees, it changes the live state that the next
    render will read.  Asynchronous functions run synchronously up to their
    first [await] on the remote store and are resumed when the answer arrives.

    The embedding keeps these three things apart:
    - [Render]: the values a closure sees ([useUser], [useSupabase] and the
      state as of that render);
    - [Prog]: the body of a function, as a tree of state updates, remote
      requests and calls, built from a [Render];
    - [World]: the live state, the requests sent so far and the suspended
      continuations, on which a [Prog] is run. *)

From Stdlib Require Import List String Bool Arith Lia.
Import ListNotations.
Local Open Scope string_scope.
Local Open Scope list_scope.

(** ** Data model *)

Module TodoItem.
(** Modelled from the spec: the declaration of [TodoItemType] in
    [./types/todo] is not among the sources.  The fields are those of the
    data model (id, title, completed, level, isEmpty), which are also the
    ones [handleCreateTodo] fills in; [level] is a non-negative integer. *)
Record t : Type := mk
  { id : string; title : string; completed : bool; level : nat; isEmpty : bool }.
End TodoItem.

Module Partial.
(** [Partial<TodoItemType>]: every field optional. *)
Record t : Type := mk
  { id : option string; title : option string; completed : option bool;
    level : option nat; isEmpty : option bool }.

Definition pick {A : Type} (update : option A) (old : A) : A :=
  match update with Some v => v | None => old end.

(** [{ ...todo, ...updates }] *)
Definition merge (todo : TodoItem.t) (updates : t) : TodoItem.t :=
  TodoItem.mk (pick (id updates) (TodoItem.id todo))
              (pick (title updates) (TodoItem.title todo))
              (pick (completed updates) (TodoItem.completed todo))
              (pick (level updates) (TodoItem.level todo))
              (pick (isEmpty updates) (TodoItem.isEmpty todo)).
End Partial.

Module TodoList.
(** [interface TodoList].  Rows read from the remote table carry [user_id],
    [created_at] and [updated_at] as well; the component never reads them. *)
Record t : Type := mk
  { id : string; name : string; todos : list TodoItem.t }.

(** [{ ...list, name: newTitle }] *)
Definition with_name (l : t) (newTitle : string) : t :=
  mk (id l) newTitle (todos l).

(** [{ ...list, todos: updatedTodos }] *)
Definition with_todos (l : t) (updatedTodos : list TodoItem.t) : t :=
  mk (id l) (name l) updatedTodos.
End TodoList.

(** The React state of [App]. *)
Record State : Type := mkState
  { lists : list TodoList.t;
    activeListId : string;
    isInitialized : bool;
    isCreatingList : bool }.

(** What [useUser()] and [useSupabase()] returned for a render: the sign-in
    flag, the user's id if there is a user, and whether a client exists. *)
Record Session : Type := mkSession
  { isSignedIn : bool; user : option string; supabase : bool }.

(** The bindings the closures of one render capture. *)
Record Render : Type := mkRender
  { session : Session; seen : State }.

(** ** The remote store *)

(** The queries the component builds on [supabase.from('todo_lists')].  The
    timestamps written with a row are left out. *)
Inductive Request : Type :=
| Select (user_id : option string)
| Insert (row : TodoList.t) (user_id : option string)
| UpdateTodos (listId : string) (updatedTodos : list TodoItem.t)
| UpdateName (listId : string) (newTitle : string)
| Delete (listId : string).

(** [{ data, error }] *)
Record Response : Type := mkResponse
  { data : option (list TodoList.t); error : bool }.

Definition ok : Response := mkResponse None false.
Definition rows (found : list TodoList.t) : Response := mkResponse (Some found) false.
Definition failed : Response := mkResponse None true.

(** ** Function bodies *)

(** Entries of the call log: which helper was entered with which arguments.
    The log has no counterpart in the source; it makes the calls to
    [syncList] and [createList] visible where they send nothing. *)
Inductive Call : Type :=
| CallSyncList (listId : string) (updatedTodos : list TodoItem.t)
| CallCreateList (list : TodoList.t).

(** A body is a sequence of state updates, [uuidv4()] draws, awaited requests
    and console messages; [Enter] marks the entry into a helper.  Where the source calls an asynchronous function
    without awaiting it ([syncList], [createList] from [handleCreateList],
    [fetchTodoLists] from the effects) the call is the last statement of the
    caller, so the callee's body is the rest of the caller's work. *)
Inductive Prog : Type :=
| Done
| SetLists (value : list TodoList.t) (k : Prog)
| SetListsWith (updater : list TodoList.t -> list TodoList.t) (k : Prog)
| SetActiveListId (value : string) (k : Prog)
| SetIsInitialized (value : bool) (k : Prog)
| SetIsCreatingList (value : bool) (k : Prog)
| Uuidv4 (k : string -> Prog)
| Await (query : Request) (k : Response -> Prog)
| ConsoleError (message : string) (k : Prog)
| Enter (call : Call) (k : Prog)
| OutOfFuel.

(** [await callee(); rest]: the callee runs to its end (a [return] in it ends
    the callee only), then [rest] runs. *)
Fixpoint seq (callee rest : Prog) : Prog :=
  match callee with
  | Done => rest
  | SetLists v k => SetLists v (seq k rest)
  | SetListsWith f k => SetListsWith f (seq k rest)
  | SetActiveListId v k => SetActiveListId v (seq k rest)
  | SetIsInitialized v k => SetIsInitialized v (seq k rest)
  | SetIsCreatingList v k => SetIsCreatingList v (seq k rest)
  | Uuidv4 k => Uuidv4 (fun u => seq (k u) rest)
  | Await q k => Await q (fun r => seq (k r) rest)
  | ConsoleError m k => ConsoleError m (seq k rest)
  | Enter c k => Enter c (seq k rest)
  | OutOfFuel => OutOfFuel
  end.

Section Closures.
(** The render whose closures are being built. *)
Variable c : Render.

Let signedIn : bool := isSignedIn (session c).
Let client : bool := supabase (session c).
Let userId : option string := user (session c).

(** [list.id === activeListId ? rebuilt : list] under [lists.map] *)
Definition mapActive (rebuild : TodoList.t -> TodoList.t) : list TodoList.t :=
  map (fun list =>
         if TodoList.id list =? activeListId (seen c) then rebuild list else list)
      (lists (seen c)).

(** [lists.find(list => list.id === activeListId)] *)
Definition activeList : option TodoList.t :=
  find (fun list => TodoList.id list =? activeListId (seen c)) (lists (seen c)).

(** [activeList?.todos || []] *)
Definition todos : list TodoItem.t :=
  match activeList with
  | Some list => TodoList.todos list
  | None => []
  end.

Definition syncList (listId : string) (updatedTodos : list TodoItem.t) : Prog :=
  Enter (CallSyncList listId updatedTodos)
    (if negb signedIn || negb client then Done
     else
       Await (UpdateTodos listId updatedTodos) (fun r =>
         if error r then ConsoleError "Error syncing todos:" Done
         else Done)).

(** [createList], with the [fetchTodoLists] of the same render passed in. *)
Definition createListWith (fetch : Prog) (list : TodoList.t) : Prog :=
  Enter (CallCreateList list)
    (if isCreatingList (seen c) then Done
     else
       SetIsCreatingList true
         (let finally := SetIsCreatingList false Done in
          if negb signedIn then
            SetListsWith (fun prev => prev ++ [list])
              (SetActiveListId (TodoList.id list) finally)
          else if client then
            Await (Insert list userId) (fun r =>
              if error r then ConsoleError "Error creating list:" finally
              else seq fetch (SetActiveListId (TodoList.id list) finally))
          else finally)).

Definition defaultList (uuid : string) : TodoList.t :=
  TodoList.mk uuid "My Tasks" [].

(** [fetchTodoLists] and [createList] call each other; [fuel] bounds how
    deep that nesting may go. *)
Fixpoint fetchTodoLists (fuel : nat) : Prog :=
  match fuel with
  | O => OutOfFuel
  | S fuel' =>
      if negb client then Done
      else
        Await (Select userId) (fun r =>
          if error r then ConsoleError "Error fetching todo lists:" Done
          else
            match data r with
            | Some (first :: rest) =>
                let formattedLists := first :: rest in
                SetLists formattedLists
                  ((if activeListId (seen c) =? EmptyString
                    then SetActiveListId (TodoList.id first)
                    else fun k => k)
                     (SetIsInitialized true Done))
            | _ =>
                Uuidv4 (fun uuid =>
                  seq (createListWith (fetchTodoLists fuel') (defaultList uuid))
                    (SetLists [defaultList uuid]
                       (SetActiveListId uuid
                          (SetIsInitialized true Done))))
            end)
  end.

Definition createList (fuel : nat) (list : TodoList.t) : Prog :=
  createListWith (fetchTodoLists fuel) list.

(** [lists[0]?.id || ''] *)
Definition firstListId : string :=
  match lists (seen c) with
  | first :: _ => TodoList.id first
  | [] => EmptyString
  end.

Definition deleteList (fuel : nat) (id : string) : Prog :=
  if negb signedIn then
    SetListsWith (filter (fun list => negb (TodoList.id list =? id)))
      (if activeListId (seen c) =? id
       then SetActiveListId firstListId Done
       else Done)
  else if negb client then Done
  else
    Await (Delete id) (fun r =>
      if error r then ConsoleError "Error deleting list:" Done
      else fetchTodoLists fuel).

Definition updateListTitle (newTitle : string) : Prog :=
  SetLists (mapActive (fun list => TodoList.with_name list newTitle))
    (if negb signedIn || negb client then Done
     else
       Await (UpdateName (activeListId (seen c)) newTitle) (fun r =>
         if error r then ConsoleError "Error updating list title:" Done
         else Done)).

Definition handleCreateTodo : Prog :=
  Uuidv4 (fun uuid =>
    let newTodo := TodoItem.mk uuid EmptyString false 0 true in
    let updatedTodos := todos ++ [newTodo] in
    SetLists (mapActive (fun list => TodoList.with_todos list updatedTodos))
      (syncList (activeListId (seen c)) updatedTodos)).

Definition handleUpdateTodo (id : string) (updates : Partial.t) : Prog :=
  let updatedTodos :=
    map (fun todo =>
           if TodoItem.id todo =? id then Partial.merge todo updates else todo)
        todos in
  SetLists (mapActive (fun list => TodoList.with_todos list updatedTodos))
    (syncList (activeListId (seen c)) updatedTodos).

Definition handleDeleteTodo (id : string) : Prog :=
  let updatedTodos :=
    filter (fun todo => negb (TodoItem.id todo =? id)) todos in
  SetLists (mapActive (fun list => TodoList.with_todos list updatedTodos))
    (syncList (activeListId (seen c)) updatedTodos).

Definition handleDuplicateTodo (id : string) : Prog :=
  match find (fun todo => TodoItem.id todo =? id) todos with
  | None => Done
  | Some todoToDuplicate =>
      Uuidv4 (fun uuid =>
        let newTodo :=
          TodoItem.mk uuid
                      (TodoItem.title todoToDuplicate ++ " (copy)")%string
                      (TodoItem.completed todoToDuplicate)
                      (TodoItem.level todoToDuplicate)
                      (TodoItem.isEmpty todoToDuplicate) in
        let updatedTodos := todos ++ [newTodo] in
        SetLists (mapActive (fun list => TodoList.with_todos list updatedTodos))
          (syncList (activeListId (seen c)) updatedTodos))
  end.

Definition handleCreateList (fuel : nat) : Prog :=
  if isCreatingList (seen c) then Done
  else
    Uuidv4 (fun uuid =>
      createList fuel (TodoList.mk uuid "Untitled List" [])).

(** The effect that depends on [isSignedIn, user, supabase]. *)
Definition initialize (fuel : nat) : Prog :=
  if signedIn && (match userId with Some _ => true | None => false end) && client then
    fetchTodoLists fuel
  else if negb (isInitialized (seen c)) then
    Uuidv4 (fun uuid =>
      SetLists [defaultList uuid]
        (SetActiveListId uuid
           (SetIsInitialized true Done)))
  else Done.

(** The callback handed to the [postgres_changes] subscription. *)
Definition onChange (fuel : nat) : Prog :=
  fetchTodoLists fuel.
End Closures.

(** ** Running function bodies *)

(** A continuation waiting for the answer to the request it sent. *)
Record Suspended : Type := mkSuspended
  { awaited : Request; resume : Response -> Prog }.

(** The live side: the React state, the requests sent to the remote store (in
    order), the continuations waiting for an answer, the console, the call
    log, and the source of [uuidv4()] results with the number drawn so far.
    [stuck] records that a body ran out of nesting fuel. *)
Record World : Type := mkWorld
  { state : State;
    sent : list Request;
    pending : list Suspended;
    console : list string;
    calls : list Call;
    uuidv4 : nat -> string;
    drawn : nat;
    stuck : bool }.

Definition setState (update : State -> State) (w : World) : World :=
  mkWorld (update (state w)) (sent w) (pending w) (console w) (calls w)
          (uuidv4 w) (drawn w) (stuck w).

Definition setLists (update : list TodoList.t -> list TodoList.t) (s : State) : State :=
  mkState (update (lists s)) (activeListId s) (isInitialized s) (isCreatingList s).

Definition setActiveListId (value : string) (s : State) : State :=
  mkState (lists s) value (isInitialized s) (isCreatingList s).

Definition setIsInitialized (value : bool) (s : State) : State :=
  mkState (lists s) (activeListId s) value (isCreatingList s).

Definition setIsCreatingList (value : bool) (s : State) : State :=
  mkState (lists s) (activeListId s) (isInitialized s) value.

Definition suspend (q : Request) (k : Response -> Prog) (w : World) : World :=
  mkWorld (state w) (sent w ++ [q]) (pending w ++ [mkSuspended q k])
          (console w) (calls w) (uuidv4 w) (drawn w) (stuck w).

Definition logError (message : string) (w : World) : World :=
  mkWorld (state w) (sent w) (pending w) (console w ++ [message]) (calls w)
          (uuidv4 w) (drawn w) (stuck w).

Definition logCall (call : Call) (w : World) : World :=
  mkWorld (state w) (sent w) (pending w) (console w) (calls w ++ [call])
          (uuidv4 w) (drawn w) (stuck w).

Definition draw (w : World) : World :=
  mkWorld (state w) (sent w) (pending w) (console w) (calls w)
          (uuidv4 w) (S (drawn w)) (stuck w).

Definition outOfFuel (w : World) : World :=
  mkWorld (state w) (sent w) (pending w) (console w) (calls w)
          (uuidv4 w) (drawn w) true.

Definition withPending (waiting : list Suspended) (w : World) : World :=
  mkWorld (state w) (sent w) waiting (console w) (calls w)
          (uuidv4 w) (drawn w) (stuck w).

(** Runs a body up to its end or its first [await]. *)
Fixpoint run (p : Prog) (w : World) : World :=
  match p with
  | Done => w
  | SetLists v k => run k (setState (setLists (fun _ => v)) w)
  | SetListsWith f k => run k (setState (setLists f) w)
  | SetActiveListId v k => run k (setState (setActiveListId v) w)
  | SetIsInitialized v k => run k (setState (setIsInitialized v) w)
  | SetIsCreatingList v k => run k (setState (setIsCreatingList v) w)
  | Uuidv4 k => run (k (uuidv4 w (drawn w))) (draw w)
  | Await q k => suspend q k w
  | ConsoleError m k => run k (logError m w)
  | Enter call k => run k (logCall call w)
  | OutOfFuel => outOfFuel w
  end.

Fixpoint removeAt {A : Type} (i : nat) (l : list A) : list A :=
  match i, l with
  | _, [] => []
  | O, _ :: rest => rest
  | S j, x :: rest => x :: removeAt j rest
  end.

(** The remote store answers the [i]-th waiting continuation with [r]. *)
Definition deliver (i : nat) (r : Response) (w : World) : World :=
  match nth_error (pending w) i with
  | None => w
  | Some waiting =>
      run (resume waiting r) (withPending (removeAt i (pending w)) w)
  end.

(** The render the next event handler is taken from, once React has
    re-rendered with the live state. *)
Definition render (s : Session) (w : World) : Render :=
  mkRender s (state w).

(** Drives one task to its end.  [base] continuations were waiting before the
    task started; while the task itself waits, its continuation is the one at
    index [base].  Each answer goes to it; answers left over once the task has
    ended are not used. *)
Fixpoint drive (base : nat) (rs : list Response) (w : World) : World :=
  match rs with
  | [] => w
  | r :: rs' =>
      if Nat.leb (List.length (pending w)) base then w
      else drive base rs' (deliver base r w)
  end.

(** A body is started in [w] and the remote store answers [rs], one answer
    per request of that body, with nothing else happening in between. *)
Definition exec (p : Prog) (rs : list Response) (w : World) : World :=
  drive (List.length (pending w)) rs (run p w).

(** A handler of the current render is called and runs to its end. *)
Definition perform (s : Session) (handler : Render -> Prog)
    (rs : list Response) (w : World) : World :=
  exec (handler (render s w)) rs w.

(** ** The invariant on the active list *)

Definition listIds (ls : list TodoList.t) : list string := map TodoList.id ls.

(** The active list id is empty or is the id of a list of the collection. *)
Definition activeOk (s : State) : Prop :=
  activeListId s = EmptyString \/ In (activeListId s) (listIds (lists s)).

(** ** Sessions and worlds used in the examples *)

(** Nobody signed in; [useSupabase] has built its client without a token. *)
Definition anonymous : Session := mkSession false None true.

(** A signed-in user with a client bound to the session token. *)
Definition signedInAs (userId : string) : Session := mkSession true (Some userId) true.

(** Signed in, but [useSupabase] has not produced its client yet. *)
Definition signedInNoClient (userId : string) : Session :=
  mkSession true (Some userId) false.

(** [uuidv4()] results for the examples: "u0", "u1", ... *)
Definition countingUuid (n : nat) : string :=
  ("u" ++ String (Ascii.ascii_of_nat (48 + n)) EmptyString)%string.

(** A world with the given state and nothing in flight. *)
Definition idle (s : State) : World :=
  mkWorld s [] [] [] [] countingUuid 0 false.

Definition listA : TodoList.t := TodoList.mk "A" "Work" [].
Definition listB : TodoList.t := TodoList.mk "B" "Home" [].

(** ** Vocabulary of the properties *)

(** The remote calls [syncList] makes in a session. *)
Definition syncRequests (s : Session) (listId : string)
    (updatedTodos : list TodoItem.t) : list Request :=
  if isSignedIn s && supabase s then [UpdateTodos listId updatedTodos] else [].

(** The state after [setLists(updatedLists)] where [updatedLists] gives
    [updatedTodos] to the entries carrying the active list id. *)
Definition rebuilt (s : Session) (w : World) (updatedTodos : list TodoItem.t) : State :=
  setLists (fun _ => mapActive (render s w)
                       (fun l => TodoList.with_todos l updatedTodos))
           (state w).

(** The todo [handleCreateTodo] appends. *)
Definition emptyTodo (uuid : string) : TodoItem.t :=
  TodoItem.mk uuid EmptyString false 0 true.

(** The todo [handleDuplicateTodo] appends. *)
Definition copyOf (original : TodoItem.t) (uuid : string) : TodoItem.t :=
  TodoItem.mk uuid (TodoItem.title original ++ " (copy)")%string
              (TodoItem.completed original) (TodoItem.level original)
              (TodoItem.isEmpty original).

(** The sequence [handleUpdateTodo] computes. *)
Definition mergedTodos (id : string) (updates : Partial.t)
    (old : list TodoItem.t) : list TodoItem.t :=
  map (fun todo => if TodoItem.id todo =? id then Partial.merge todo updates else todo)
      old.

(** The sequence [handleDeleteTodo] computes. *)
Definition keptTodos (id : string) (old : list TodoItem.t) : list TodoItem.t :=
  filter (fun todo => negb (TodoItem.id todo =? id)) old.

(** The outcome of a handler called in [w] that gives the active list
    [updatedTodos], having drawn [uuids] ids. *)
Definition syncedWith (s : Session) (w : World) (uuids : nat)
    (updatedTodos : list TodoItem.t) (w' : World) : Prop :=
  state w' = rebuilt s w updatedTodos
  /\ calls w' = calls w ++ [CallSyncList (activeListId (state w)) updatedTodos]
  /\ sent w' = sent w ++ syncRequests s (activeListId (state w)) updatedTodos
  /\ drawn w' = uuids + drawn w.

(** Between two states the active list id is the same, the collection has the
    same length, every position keeps its list id, and every position whose
    list id is not the active one keeps its list. *)
Definition onlyActiveRebuilt (before after : State) : Prop :=
  activeListId after = activeListId before
  /\ List.length (lists after) = List.length (lists before)
  /\ forall i l, nth_error (lists before) i = Some l ->
       exists l', nth_error (lists after) i = Some l'
                  /\ TodoList.id l' = TodoList.id l
                  /\ (TodoList.id l <> activeListId before -> l' = l).

(** The remote calls [updateListTitle] makes in a session. *)
Definition renameRequests (s : Session) (listId newTitle : string) : list Request :=
  if isSignedIn s && supabase s then [UpdateName listId newTitle] else [].

(** An answer without error and without rows. *)
Definition emptyResult (r : Response) : Prop :=
  error r = false /\ (data r = Some [] \/ data r = None).

Definition isInsert (q : Request) : bool :=
  match q with Insert _ _ => true | _ => false end.

(** Nothing was sent, left waiting, logged to the console or drawn between
    [w] and [w']. *)
Definition sameTraffic (w w' : World) : Prop :=
  sent w' = sent w /\ pending w' = pending w /\ console w' = console w
  /\ drawn w' = drawn w /\ uuidv4 w' = uuidv4 w /\ stuck w' = stuck w.

(** The state a fetch made from a render that saw [seenActive] leaves, when
    its answer is an error or a non-empty result. *)
Definition fetched (seenActive : string) (r : Response) (st : State) : State :=
  if error r then st
  else
    match data r with
    | Some (first :: rest) =>
        mkState (first :: rest)
                (if seenActive =? EmptyString
                 then TodoList.id first else activeListId st)
                true (isCreatingList st)
    | _ => st
    end.

(** An answer to a fetch under which the active list id [active] stays
    valid: an error, or a non-empty result when no list is active or the
    active id is among the fetched ones. *)
Definition keepsActive (active : string) (r : Response) : Prop :=
  error r = true
  \/ exists first rest,
       error r = false /\ data r = Some (first :: rest)
       /\ (active = EmptyString \/ In active (listIds (first :: rest))).

(** A non-empty result that holds the list with id [id]. *)
Definition returnsList (id : string) (r : Response) : Prop :=
  exists first rest,
    error r = false /\ data r = Some (first :: rest)
    /\ In id (listIds (first :: rest)).

(** The mutations the presentation layer can ask for. *)
Inductive Op : Type :=
| OpCreateList (list : TodoList.t)
| OpDeleteList (id : string)
| OpUpdateListTitle (newTitle : string)
| OpCreateTodo
| OpUpdateTodo (id : string) (updates : Partial.t)
| OpDeleteTodo (id : string)
| OpDuplicateTodo (id : string).

Definition handler (fuel : nat) (op : Op) (c : Render) : Prog :=
  match op with
  | OpCreateList list => createList c fuel list
  | OpDeleteList id => deleteList c fuel id
  | OpUpdateListTitle newTitle => updateListTitle c newTitle
  | OpCreateTodo => handleCreateTodo c
  | OpUpdateTodo id updates => handleUpdateTodo c id updates
  | OpDeleteTodo id => handleDeleteTodo c id
  | OpDuplicateTodo id => handleDuplicateTodo c id
  end.

(** One mutation, called from the current render; the remote store is given
    no occasion to answer. *)
Definition apply (s : Session) (fuel : nat) (w : World) (op : Op) : World :=
  perform s (handler fuel op) [] w.

(** Mutations one after the other, each from the render that follows the
    previous one. *)
Definition applyAll (s : Session) (fuel : nat) (ops : list Op) (w : World) : World :=
  fold_left (apply s fuel) ops w.

(** What the specification says each mutation does to the collection, given
    the id of the list that is active and the id a new todo receives. *)
Module Spec.
(** The active list is located by id and its sequence is changed; its id and
    its name stay. *)
Definition onActive (active : string)
    (change : list TodoItem.t -> list TodoItem.t)
    (ls : list TodoList.t) : list TodoList.t :=
  map (fun l => if TodoList.id l =? active
                then TodoList.mk (TodoList.id l) (TodoList.name l)
                                 (change (TodoList.todos l))
                else l) ls.

(** "merges the given field changes": a field that is given takes the value
    given, a field that is not given keeps its value. *)
Definition merged (todo : TodoItem.t) (changes : Partial.t) : TodoItem.t :=
  TodoItem.mk
    (match Partial.id changes with Some v => v | None => TodoItem.id todo end)
    (match Partial.title changes with Some v => v | None => TodoItem.title todo end)
    (match Partial.completed changes with
     | Some v => v
     | None => TodoItem.completed todo
     end)
    (match Partial.level changes with Some v => v | None => TodoItem.level todo end)
    (match Partial.isEmpty changes with
     | Some v => v
     | None => TodoItem.isEmpty todo
     end).

(** "appends to local state" *)
Definition createList (new : TodoList.t) (ls : list TodoList.t) : list TodoList.t :=
  ls ++ [new].

(** "removes from local state" *)
Definition deleteList (id : string) (ls : list TodoList.t) : list TodoList.t :=
  filter (fun l => negb (TodoList.id l =? id)) ls.

(** "updates the active list's name" *)
Definition updateListTitle (active newTitle : string)
    (ls : list TodoList.t) : list TodoList.t :=
  map (fun l => if TodoList.id l =? active
                then TodoList.mk (TodoList.id l) newTitle (TodoList.todos l)
                else l) ls.

(** "appends a new empty TodoItem (title empty, isEmpty=true, level 0)" *)
Definition createTodo (active uuid : string) :=
  onActive active (fun ts => ts ++ [TodoItem.mk uuid EmptyString false 0 true]).

(** "merges the given field changes into the matching TodoItem (by id),
    preserving all other fields and the sequence order" *)
Definition updateTodo (active id : string) (changes : Partial.t) :=
  onActive active
    (map (fun t => if TodoItem.id t =? id then merged t changes else t)).

(** "removes the matching TodoItem" *)
Definition deleteTodo (active id : string) :=
  onActive active (filter (fun t => negb (TodoItem.id t =? id))).

(** "clones the matching TodoItem with a new id and a title suffixed with
    (copy), appended to the end of the sequence" *)
Definition duplicateTodo (active id uuid : string) :=
  onActive active (fun ts =>
    match find (fun t => TodoItem.id t =? id) ts with
    | Some original =>
        ts ++ [TodoItem.mk uuid (TodoItem.title original ++ " (copy)")%string
                           (TodoItem.completed original)
                           (TodoItem.level original)
                           (TodoItem.isEmpty original)]
    | None => ts
    end).

Definition apply (active uuid : string) (op : Op)
    (ls : list TodoList.t) : list TodoList.t :=
  match op with
  | OpCreateList new => createList new ls
  | OpDeleteList id => deleteList id ls
  | OpUpdateListTitle newTitle => updateListTitle active newTitle ls
  | OpCreateTodo => createTodo active uuid ls
  | OpUpdateTodo id changes => updateTodo active id changes ls
  | OpDeleteTodo id => deleteTodo active id ls
  | OpDuplicateTodo id => duplicateTodo active id uuid ls
  end.
End Spec.

(** The mutations that change the active list only. *)
Definition onActiveList (op : Op) : bool :=
  match op with
  | OpCreateList _ | OpDeleteList _ => false
  | _ => true
  end.

(** A created list brings an id the collection does not hold yet. *)
Definition freshList (op : Op) (w : World) : Prop :=
  match op with
  | OpCreateList new => ~ In (TodoList.id new) (listIds (lists (state w)))
  | _ => True
  end.

Fixpoint freshLists (s : Session) (fuel : nat) (ops : list Op) (w : World) : Prop :=
  match ops with
  | [] => True
  | op :: rest => freshList op w /\ freshLists s fuel rest (apply s fuel w op)
  end.

(** Every mutation of the sequence, run in order, changes the collection as
    the specification says, for the list that is active when it runs. *)
Fixpoint reflected (s : Session) (fuel : nat) (ops : list Op) (w : World) : Prop :=
  match ops with
  | [] => True
  | op :: rest =>
      lists (state (apply s fuel w op))
      = Spec.apply (activeListId (state w)) (uuidv4 w (drawn w)) op
                   (lists (state w))
      /\ reflected s fuel rest (apply s fuel w op)
  end.

(** ** More values used in the examples *)

Definition todoT1 : TodoItem.t := TodoItem.mk "t1" "Buy milk" false 0 false.
Definition todoT2 : TodoItem.t := TodoItem.mk "t2" "Call home" false 1 false.
Definition listWork : TodoList.t := TodoList.mk "A" "Work" [todoT1; todoT2].
Definition completedOnly : Partial.t := Partial.mk None None (Some true) None None.

Definition firstDefault : TodoList.t := TodoList.mk "u0" "My Tasks" [].
Definition secondDefault : TodoList.t := TodoList.mk "u1" "My Tasks" [].

Definition listOne : TodoList.t := TodoList.mk "L1" "Untitled List" [].
Definition listTwo : TodoList.t := TodoList.mk "L2" "Untitled List" [].

(** A signed-in user with no list and nothing in flight. *)
Definition freshSignedIn : World := idle (mkState [] EmptyString false false).

Definition localDefault : TodoList.t := TodoList.mk "L" "My Tasks" [].


(** ** The keyboard handler and the client factory *)

(** [handleKeyDown(e, id)], with [e.key] as [key]: whether
    [e.preventDefault()] is called, and the handler that runs. *)
Definition handleKeyDown (c : Render) (key id : string) : bool * Prog :=
  if key =? "Enter" then (true, handleCreateTodo c)
  else if (key =? "Backspace")
          && match find (fun t => TodoItem.id t =? id) (todos c) with
             | Some t => TodoItem.title t =? EmptyString
             | None => false
             end
       then (true, handleDeleteTodo c id)
  else (false, Done).

(** [import.meta.env] as [lib/supabase.ts] reads it. *)
Record Env : Type := mkEnv
  { VITE_SUPABASE_URL : option string; VITE_SUPABASE_ANON_KEY : option string }.

(** What [createClient] of [@supabase/supabase-js] is called with: the url,
    the anon key and the global headers. *)
Record ClientOptions : Type := mkClientOptions
  { supabaseUrl : string; supabaseAnonKey : string;
    headers : list (string * string) }.

(** JavaScript truthiness of an optional string: [undefined], [null] and the
    empty string are falsy. *)
Definition truthy (value : option string) : bool :=
  match value with
  | Some (String _ _) => true
  | _ => false
  end.

Definition valueOf (value : option string) : string :=
  match value with Some v => v | None => EmptyString end.

Definition missingVariables : string := "Missing Supabase environment variables".

(** [createSupabaseClient(clerkToken)]: the message of an error thrown, or
    the client.  [createClient] belongs to a library that is not part of the
    sources: it is a parameter, which may itself throw or return a client. *)
Definition createSupabaseClient {Client : Type}
    (createClient : ClientOptions -> string + Client)
    (env : Env) (clerkToken : option string) : string + Client :=
  let url := VITE_SUPABASE_URL env in
  let anonKey := VITE_SUPABASE_ANON_KEY env in
  if negb (truthy url) || negb (truthy anonKey) then inl missingVariables
  else
    createClient
      (mkClientOptions (valueOf url) (valueOf anonKey)
         (if truthy clerkToken
          then [("Authorization", ("Bearer " ++ valueOf clerkToken)%string)]
          else [])).

(** The todos of the active list have pairwise different ids. *)
Definition todoIdsUnique (c : Render) : Prop :=
  NoDup (map TodoItem.id (todos c)).

(** * Properties *)

(** ** Driving a task *)

Lemma nth_error_last {A : Type} (l : list A) (x : A) :
  nth_error (l ++ [x]) (List.length l) = Some x.
Proof.
  induction l as [|y l IH]; [reflexivity | exact IH].
Qed.

Lemma removeAt_last {A : Type} (l : list A) (x : A) :
  removeAt (List.length l) (l ++ [x]) = l.
Proof.
  induction l as [|y l IH]; [reflexivity | cbn; now rewrite IH].
Qed.

(** A task that has ended takes no further answer. *)
Lemma drive_stop st sn pd co ca gen dr sk rs :
  drive (List.length pd) rs (mkWorld st sn pd co ca gen dr sk)
  = mkWorld st sn pd co ca gen dr sk.
Proof.
  destruct rs as [|r rs]; [reflexivity|].
  cbn. now rewrite Nat.leb_refl.
Qed.

(** A waiting task is resumed with the next answer. *)
Lemma drive_step st sn pd co ca gen dr sk q k r rs :
  drive (List.length pd) (r :: rs)
        (mkWorld st sn (pd ++ [mkSuspended q k]) co ca gen dr sk)
  = drive (List.length pd) rs (run (k r) (mkWorld st sn pd co ca gen dr sk)).
Proof.
  cbn [drive pending].
  replace (Nat.leb (List.length (pd ++ [mkSuspended q k])) (List.length pd))
    with false
    by (symmetry; apply Nat.leb_gt; rewrite length_app; cbn; lia).
  unfold deliver. cbn [pending].
  rewrite nth_error_last, removeAt_last. reflexivity.
Qed.

(** A task that waits and gets no answer stays as [run] left it. *)
Lemma drive_nil base w : drive base [] w = w.
Proof. reflexivity. Qed.

Arguments drive : simpl never.

(** Unfolds a run on a world given field by field. *)
Ltac world_nf :=
  lazy beta iota zeta delta
    [run seq suspend logCall logError setState draw outOfFuel withPending
     setLists setActiveListId setIsInitialized setIsCreatingList
     state sent pending console calls uuidv4 drawn stuck
     lists activeListId isInitialized isCreatingList
     session seen isSignedIn user supabase data error awaited resume
     syncList createListWith createList fetchTodoLists deleteList
     updateListTitle handleCreateTodo handleUpdateTodo handleDeleteTodo
     handleDuplicateTodo handleCreateList initialize onChange
     rows ok failed defaultList negb andb orb].

Ltac run_task :=
  unfold perform, exec, render;
  world_nf;
  repeat (first [rewrite drive_step | rewrite drive_stop | rewrite drive_nil];
          world_nf).

(** ** Lists *)

Lemma find_rebuild {A : Type} (p : A -> bool) (f : A -> A) (ls : list A) (a : A) :
  find p ls = Some a ->
  p (f a) = true ->
  find p (map (fun x => if p x then f x else x) ls) = Some (f a).
Proof.
  intros Hfind Hkeep.
  induction ls as [|x ls IH]; [discriminate|].
  cbn in *. destruct (p x) eqn:Hx.
  - injection Hfind as ->. now rewrite Hkeep.
  - rewrite Hx. now apply IH.
Qed.

Lemma find_rebuild_none {A : Type} (p : A -> bool) (f : A -> A) (ls : list A) :
  find p ls = None ->
  map (fun x => if p x then f x else x) ls = ls.
Proof.
  induction ls as [|x ls IH]; [reflexivity|].
  cbn. destruct (p x); [discriminate|].
  intros H. now rewrite IH.
Qed.


Lemma find_todo_missing (id : string) (ts : list TodoItem.t) :
  ~ In id (map TodoItem.id ts) ->
  find (fun t => TodoItem.id t =? id) ts = None.
Proof.
  induction ts as [|t ts IH]; [reflexivity|].
  cbn. intros H. destruct (TodoItem.id t =? id) eqn:E.
  - apply String.eqb_eq in E. tauto.
  - apply IH. tauto.
Qed.

Lemma nth_error_map_if {A : Type} (p : A -> bool) (f : A -> A) (ls : list A)
    (i : nat) (x : A) :
  nth_error ls i = Some x ->
  nth_error (map (fun y => if p y then f y else y) ls) i
  = Some (if p x then f x else x).
Proof.
  intros H. rewrite nth_error_map, H. reflexivity.
Qed.

(** ** deleteList on the active list *)

(** C1, on the code: with nobody signed in, lists A and B and A active,
    [deleteList("A")] removes A and leaves the active list id at "A", the id
    of the list just removed, although B remains; and when A is the only list
    the active id is "A" afterwards, not the empty string. *)
Theorem deleteList_active_first_keeps_deleted_id :
  let delete := perform anonymous (fun c => deleteList c 2 "A") [] in
  let two := delete (idle (mkState [listA; listB] "A" true false)) in
  let one := delete (idle (mkState [listA] "A" true false)) in
  lists (state two) = [listB] /\ activeListId (state two) = "A"
  /\ lists (state one) = [] /\ activeListId (state one) = "A"
  /\ sent two = [] /\ sent one = [].
Proof.
  repeat split; reflexivity.
Qed.

(** ** The todo operations on the active list *)

(** What a body that ends in [setLists(updatedLists); syncList(listId,
    updatedTodos)] leaves behind: the new collection, one entry in the call
    log, the request if the session allows one; the answer to the request
    changes none of these. *)
Lemma sync_tail (c : Render) (w : World) (rs : list Response)
    (updatedLists : list TodoList.t) (listId : string)
    (updatedTodos : list TodoItem.t) :
  let w' := exec (SetLists updatedLists (syncList c listId updatedTodos)) rs w in
  state w' = setLists (fun _ => updatedLists) (state w)
  /\ calls w' = calls w ++ [CallSyncList listId updatedTodos]
  /\ sent w' = sent w ++ syncRequests (session c) listId updatedTodos
  /\ drawn w' = drawn w /\ uuidv4 w' = uuidv4 w.
Proof.
  destruct w as [st sn pd co ca gen dr sk], c as [[[|] u [|]] seen0];
    unfold syncRequests; run_task;
    try (now rewrite ?app_nil_r).
  destruct rs as [|[d [|]] rs]; run_task; auto.
Qed.

Lemma exec_uuid (k : string -> Prog) (rs : list Response) (w : World) :
  exec (Uuidv4 k) rs w = exec (k (uuidv4 w (drawn w))) rs (draw w).
Proof. reflexivity. Qed.

Section TodoHandlers.
Variables (s : Session) (w : World) (rs : list Response).

Lemma handleCreateTodo_effect :
  syncedWith s w 1 (todos (render s w) ++ [emptyTodo (uuidv4 w (drawn w))])
             (perform s handleCreateTodo rs w).
Proof.
  unfold perform, handleCreateTodo. rewrite exec_uuid.
  match goal with |- syncedWith s w _ _ (exec (SetLists ?ls (syncList ?c ?i ?ts)) _ _) =>
    destruct (sync_tail c (draw w) rs ls i ts) as (H1 & H2 & H3 & H4 & _)
  end.
  repeat split; assumption.
Qed.

Lemma handleUpdateTodo_effect (id : string) (updates : Partial.t) :
  syncedWith s w 0 (mergedTodos id updates (todos (render s w)))
             (perform s (fun c => handleUpdateTodo c id updates) rs w).
Proof.
  unfold perform, handleUpdateTodo.
  match goal with |- syncedWith s w _ _ (exec (SetLists ?ls (syncList ?c ?i ?ts)) _ _) =>
    destruct (sync_tail c w rs ls i ts) as (H1 & H2 & H3 & H4 & _)
  end.
  repeat split; assumption.
Qed.

Lemma handleDeleteTodo_effect (id : string) :
  syncedWith s w 0 (keptTodos id (todos (render s w)))
             (perform s (fun c => handleDeleteTodo c id) rs w).
Proof.
  unfold perform, handleDeleteTodo.
  match goal with |- syncedWith s w _ _ (exec (SetLists ?ls (syncList ?c ?i ?ts)) _ _) =>
    destruct (sync_tail c w rs ls i ts) as (H1 & H2 & H3 & H4 & _)
  end.
  repeat split; assumption.
Qed.

Lemma handleDuplicateTodo_effect (id : string) (original : TodoItem.t) :
  find (fun todo => TodoItem.id todo =? id) (todos (render s w)) = Some original ->
  syncedWith s w 1 (todos (render s w) ++ [copyOf original (uuidv4 w (drawn w))])
             (perform s (fun c => handleDuplicateTodo c id) rs w).
Proof.
  intros Hfind. unfold perform, handleDuplicateTodo. rewrite Hfind, exec_uuid.
  match goal with |- syncedWith s w _ _ (exec (SetLists ?ls (syncList ?c ?i ?ts)) _ _) =>
    destruct (sync_tail c (draw w) rs ls i ts) as (H1 & H2 & H3 & H4 & _)
  end.
  repeat split; assumption.
Qed.

Lemma handleDuplicateTodo_missing (id : string) :
  find (fun todo => TodoItem.id todo =? id) (todos (render s w)) = None ->
  perform s (fun c => handleDuplicateTodo c id) rs w = w.
Proof.
  intros Hfind. unfold perform, handleDuplicateTodo. rewrite Hfind.
  destruct w. unfold exec. cbn. apply drive_stop.
Qed.

(** After such a handler the active list is the old one with the new
    sequence. *)
Lemma syncedWith_activeList (uuids : nat) (updatedTodos : list TodoItem.t)
    (w' : World) (active : TodoList.t) :
  syncedWith s w uuids updatedTodos w' ->
  activeList (render s w) = Some active ->
  activeList (render s w') = Some (TodoList.with_todos active updatedTodos)
  /\ todos (render s w') = updatedTodos.
Proof.
  intros (Hstate & _) Hactive.
  assert (Hfound : activeList (render s w')
                   = Some (TodoList.with_todos active updatedTodos)).
  { unfold activeList. cbn [render seen]. rewrite Hstate.
    unfold rebuilt, mapActive. cbn [setLists lists activeListId render seen].
    apply (find_rebuild (fun l => TodoList.id l =? activeListId (state w))
                        (fun l => TodoList.with_todos l updatedTodos)).
    - exact Hactive.
    - cbn. apply find_some in Hactive. tauto. }
  split; [exact Hfound|].
  unfold todos. now rewrite Hfound.
Qed.
End TodoHandlers.

(** C3: when the active list holds a todo with id [id],
    [updateTodo(id, updates)] leaves the active list with a sequence of the
    same length in which every position holds the merge of the old todo with
    [updates] if the old todo's id is [id] and the old todo itself otherwise;
    the merge keeps every field that [updates] does not give and has, for
    every field that [updates] gives, the value given; and
    [syncList] is called with the active list id and that whole sequence,
    which in a signed-in session with a client is the request sent. *)
Theorem updateTodo_merges_in_place (s : Session) (w : World) (rs : list Response)
    (active : TodoList.t) (id : string) (updates : Partial.t) :
  activeList (render s w) = Some active ->
  In id (map TodoItem.id (TodoList.todos active)) ->
  let w' := perform s (fun c => handleUpdateTodo c id updates) rs w in
  let old := TodoList.todos active in
  let new := todos (render s w') in
  activeList (render s w') = Some (TodoList.with_todos active new)
  /\ List.length new = List.length old
  /\ (forall i todo, nth_error old i = Some todo ->
        nth_error new i
        = Some (if TodoItem.id todo =? id then Partial.merge todo updates else todo))
  /\ (exists i todo, nth_error old i = Some todo /\ TodoItem.id todo = id
        /\ nth_error new i = Some (Partial.merge todo updates))
  /\ (forall todo,
        let merged := Partial.merge todo updates in
        (Partial.id updates = None -> TodoItem.id merged = TodoItem.id todo)
        /\ (Partial.title updates = None -> TodoItem.title merged = TodoItem.title todo)
        /\ (Partial.completed updates = None ->
              TodoItem.completed merged = TodoItem.completed todo)
        /\ (Partial.level updates = None -> TodoItem.level merged = TodoItem.level todo)
        /\ (Partial.isEmpty updates = None ->
              TodoItem.isEmpty merged = TodoItem.isEmpty todo))
  /\ (forall todo,
        let merged := Partial.merge todo updates in
        (forall v, Partial.id updates = Some v -> TodoItem.id merged = v)
        /\ (forall v, Partial.title updates = Some v -> TodoItem.title merged = v)
        /\ (forall v, Partial.completed updates = Some v ->
              TodoItem.completed merged = v)
        /\ (forall v, Partial.level updates = Some v -> TodoItem.level merged = v)
        /\ (forall v, Partial.isEmpty updates = Some v ->
              TodoItem.isEmpty merged = v))
  /\ calls w' = calls w ++ [CallSyncList (activeListId (state w)) new]
  /\ sent w' = sent w ++ syncRequests s (activeListId (state w)) new
  /\ (isSignedIn s = true -> supabase s = true ->
        sent w' = sent w ++ [UpdateTodos (activeListId (state w)) new]).
Proof.
  intros Hactive Hin w' old new.
  assert (Htodos : todos (render s w) = old).
  { unfold todos. now rewrite Hactive. }
  pose proof (handleUpdateTodo_effect s w rs id updates) as Heffect.
  fold w' in Heffect. rewrite Htodos in Heffect.
  destruct (syncedWith_activeList s w 0 _ w' active Heffect Hactive) as (Hfound & Hnew).
  destruct Heffect as (_ & Hcalls & Hsent & _).
  fold new in Hnew. rewrite Hnew.
  split; [exact Hfound|].
  split; [apply length_map|].
  split; [intros i todo Hi;
          now apply (nth_error_map_if (fun t => TodoItem.id t =? id))|].
  split.
  { apply in_map_iff in Hin. destruct Hin as (todo & Hid & Hmem).
    apply In_nth_error in Hmem. destruct Hmem as (i & Hi).
    exists i, todo. repeat split; auto.
    unfold mergedTodos.
    rewrite (nth_error_map_if (fun t => TodoItem.id t =? id) _ _ _ _ Hi).
    cbn. rewrite Hid, String.eqb_refl. reflexivity. }
  split.
  { intros todo. cbn. repeat split; intros ->; reflexivity. }
  split.
  { intros todo. cbn zeta.
    split; [|split; [|split; [|split]]];
      intros v Hv; unfold Partial.merge; cbn; rewrite Hv; reflexivity. }
  split; [exact Hcalls|].
  split; [exact Hsent|].
  intros Hs Hc. rewrite Hsent. unfold syncRequests. now rewrite Hs, Hc.
Qed.

(** The scenario of the specification: [updateTodo("t1", {completed: true})]
    on a list holding t1 and t2. *)
Lemma updateTodo_merges_in_place_witness :
  let s := signedInAs "bob" in
  let w := idle (mkState [listWork; listB] "A" true false) in
  let w' := perform s (fun c => handleUpdateTodo c "t1" completedOnly) [ok] w in
  activeList (render s w) = Some listWork
  /\ In "t1" (map TodoItem.id (TodoList.todos listWork))
  /\ sent w' = [UpdateTodos "A" [TodoItem.mk "t1" "Buy milk" true 0 false; todoT2]].
Proof.
  intros s w w'.
  assert (H1 : activeList (render s w) = Some listWork) by reflexivity.
  assert (H2 : In "t1" (map TodoItem.id (TodoList.todos listWork)))
    by (left; reflexivity).
  split; [exact H1 | split; [exact H2|]].
  destruct (updateTodo_merges_in_place s w [ok] listWork "t1" completedOnly H1 H2)
    as (_ & _ & _ & _ & _ & _ & _ & _ & Hsent).
  exact (Hsent eq_refl eq_refl).
Defined.





(** ** Lists other than the active one *)

Lemma mapActive_frame (s : Session) (st : State) (rebuild : TodoList.t -> TodoList.t) :
  (forall l, TodoList.id (rebuild l) = TodoList.id l) ->
  onlyActiveRebuilt st (setLists (fun _ => mapActive (mkRender s st) rebuild) st).
Proof.
  intros Hid. unfold onlyActiveRebuilt, mapActive.
  cbn [setLists lists activeListId seen].
  split; [reflexivity|].
  split; [apply length_map|].
  intros i l Hi.
  rewrite (nth_error_map_if (fun x => TodoList.id x =? activeListId st) _ _ _ _ Hi).
  eexists. split; [reflexivity|].
  destruct (TodoList.id l =? activeListId st) eqn:E.
  - split; [apply Hid|]. apply String.eqb_eq in E. tauto.
  - tauto.
Qed.

Lemma onlyActiveRebuilt_refl (st : State) : onlyActiveRebuilt st st.
Proof.
  repeat split. intros i l Hi. exists l. tauto.
Qed.

Lemma updateListTitle_effect (s : Session) (w : World) (rs : list Response)
    (newTitle : string) :
  let w' := perform s (fun c => updateListTitle c newTitle) rs w in
  state w' = setLists (fun _ => mapActive (render s w)
                                  (fun l => TodoList.with_name l newTitle))
                      (state w)
  /\ calls w' = calls w
  /\ sent w' = sent w ++ renameRequests s (activeListId (state w)) newTitle
  /\ drawn w' = drawn w.
Proof.
  destruct w as [st sn pd co ca gen dr sk], s as [[|] u [|]];
    unfold renameRequests, updateListTitle; run_task;
    try (now rewrite ?app_nil_r).
  destruct rs as [|[d [|]] rs]; run_task; auto.
Qed.

Lemma syncedWith_frame (s : Session) (w w' : World) (uuids : nat)
    (updatedTodos : list TodoItem.t) :
  syncedWith s w uuids updatedTodos w' ->
  onlyActiveRebuilt (state w) (state w').
Proof.
  intros (-> & _). apply (mapActive_frame s (state w)). reflexivity.
Qed.

(** C9: [createTodo], [updateTodo], [deleteTodo], [duplicateTodo] and
    [updateListTitle], in any session and whatever the remote store answers,
    leave every list whose id is not the active list id in its position and
    equal to its previous value; no position changes its list id and the
    collection keeps its length. *)
Theorem active_list_updates_keep_other_lists (s : Session) (w : World)
    (rs : list Response) (id newTitle : string) (updates : Partial.t) :
  onlyActiveRebuilt (state w) (state (perform s handleCreateTodo rs w))
  /\ onlyActiveRebuilt (state w)
       (state (perform s (fun c => handleUpdateTodo c id updates) rs w))
  /\ onlyActiveRebuilt (state w)
       (state (perform s (fun c => handleDeleteTodo c id) rs w))
  /\ onlyActiveRebuilt (state w)
       (state (perform s (fun c => handleDuplicateTodo c id) rs w))
  /\ onlyActiveRebuilt (state w)
       (state (perform s (fun c => updateListTitle c newTitle) rs w)).
Proof.
  split; [eapply syncedWith_frame, handleCreateTodo_effect|].
  split; [eapply syncedWith_frame, handleUpdateTodo_effect|].
  split; [eapply syncedWith_frame, handleDeleteTodo_effect|].
  split.
  - destruct (find (fun todo => TodoItem.id todo =? id) (todos (render s w)))
      as [original|] eqn:Hfind.
    + eapply syncedWith_frame, handleDuplicateTodo_effect, Hfind.
    + rewrite handleDuplicateTodo_missing by exact Hfind.
      apply onlyActiveRebuilt_refl.
  - destruct (updateListTitle_effect s w rs newTitle) as (-> & _).
    apply (mapActive_frame s (state w)). reflexivity.
Qed.

(** ** duplicateTodo with an unknown id *)

Lemma keptTodos_missing (id : string) (ts : list TodoItem.t) :
  ~ In id (map TodoItem.id ts) -> keptTodos id ts = ts.
Proof.
  unfold keptTodos.
  induction ts as [|t ts IH]; [reflexivity|].
  cbn. intros H. destruct (TodoItem.id t =? id) eqn:E.
  - apply String.eqb_eq in E. tauto.
  - cbn. rewrite IH; tauto.
Qed.

Lemma mergedTodos_missing (id : string) (updates : Partial.t) (ts : list TodoItem.t) :
  ~ In id (map TodoItem.id ts) -> mergedTodos id updates ts = ts.
Proof.
  intros H. apply find_rebuild_none. now apply find_todo_missing.
Qed.

(** C10: when no todo of the active list has id [id], [duplicateTodo(id)]
    changes nothing: state, requests sent, call log and waiting continuations
    are those of before.  [deleteTodo(id)] and [updateTodo(id, updates)] in
    the same situation still call [syncList] with the unchanged sequence, and
    in a signed-in session with a client send it to the remote store. *)
Theorem duplicateTodo_unknown_id_does_nothing (s : Session) (w : World)
    (rs : list Response) (id : string) (updates : Partial.t) :
  ~ In id (map TodoItem.id (todos (render s w))) ->
  let unchanged := todos (render s w) in
  let active := activeListId (state w) in
  let duplicated := perform s (fun c => handleDuplicateTodo c id) rs w in
  let deleted := perform s (fun c => handleDeleteTodo c id) rs w in
  let updated := perform s (fun c => handleUpdateTodo c id updates) rs w in
  duplicated = w
  /\ calls deleted = calls w ++ [CallSyncList active unchanged]
  /\ calls updated = calls w ++ [CallSyncList active unchanged]
  /\ (isSignedIn s = true -> supabase s = true ->
        sent duplicated = sent w
        /\ sent deleted = sent w ++ [UpdateTodos active unchanged]
        /\ sent updated = sent w ++ [UpdateTodos active unchanged]).
Proof.
  intros Hmissing unchanged active duplicated deleted updated.
  assert (Hdup : duplicated = w)
    by (apply handleDuplicateTodo_missing; now apply find_todo_missing).
  destruct (handleDeleteTodo_effect s w rs id) as (_ & Hdc & Hds & _).
  destruct (handleUpdateTodo_effect s w rs id updates) as (_ & Huc & Hus & _).
  rewrite keptTodos_missing in Hdc, Hds by exact Hmissing.
  rewrite mergedTodos_missing in Huc, Hus by exact Hmissing.
  split; [exact Hdup|].
  split; [exact Hdc|].
  split; [exact Huc|].
  intros Hs Hc. unfold syncRequests in Hds, Hus. rewrite Hs, Hc in Hds, Hus.
  split; [now rewrite Hdup|].
  split; assumption.
Qed.

(** [duplicateTodo("t9")], [deleteTodo("t9")] and [updateTodo("t9", ...)] on
    the list holding t1 and t2. *)
Lemma duplicateTodo_unknown_id_does_nothing_witness :
  let s := signedInAs "bob" in
  let w := idle (mkState [listWork; listB] "A" true false) in
  ~ In "t9" (map TodoItem.id (todos (render s w)))
  /\ perform s (fun c => handleDuplicateTodo c "t9") [ok] w = w
  /\ sent (perform s (fun c => handleDeleteTodo c "t9") [ok] w)
     = [UpdateTodos "A" [todoT1; todoT2]].
Proof.
  intros s w.
  assert (H : ~ In "t9" (map TodoItem.id (todos (render s w)))).
  { cbn. intros [H | [H | []]]; discriminate H. }
  split; [exact H|].
  destruct (duplicateTodo_unknown_id_does_nothing s w [ok] "t9" completedOnly H)
    as (Hdup & _ & _ & Hsent).
  split; [exact Hdup|].
  destruct (Hsent eq_refl eq_refl) as (_ & Hdel & _).
  exact Hdel.
Defined.

(** ** fetchLists *)

(** C6: when a fetch made from a render with a client is answered with a
    non-empty result, the collection becomes the fetched lists in the order
    returned; if the render saw no active list the first fetched list becomes
    active, otherwise the active list id is left alone.  In particular a
    signed-in user with no active list who receives A then B has A active. *)
Theorem fetchLists_replaces_collection (c : Render) (w : World) (fuel : nat)
    (first : TodoList.t) (rest : list TodoList.t) (rs : list Response) :
  supabase (session c) = true ->
  let w' := exec (fetchTodoLists c (S fuel)) (rows (first :: rest) :: rs) w in
  let scenario :=
    perform (signedInAs "bob") (fun c' => fetchTodoLists c' 1) [rows [listA; listB]]
            (idle (mkState [] EmptyString false false)) in
  lists (state w') = first :: rest
  /\ (activeListId (seen c) = EmptyString ->
        activeListId (state w') = TodoList.id first)
  /\ (activeListId (seen c) <> EmptyString ->
        activeListId (state w') = activeListId (state w))
  /\ isInitialized (state w') = true
  /\ sent w' = sent w ++ [Select (user (session c))]
  /\ pending w' = pending w
  /\ lists (state scenario) = [listA; listB]
  /\ activeListId (state scenario) = "A".
Proof.
  intros Hclient.
  destruct w as [st sn pd co ca gen dr sk], c as [[si u cl] [ls act ini cre]].
  cbn in Hclient. subst cl.
  unfold perform, exec, render. world_nf.
  destruct (act =? EmptyString) eqn:E; run_task.
  - apply String.eqb_eq in E. repeat split; auto. intros H. contradiction.
  - apply String.eqb_neq in E. repeat split; auto. intros H. contradiction.
Qed.

(** The scenario of the specification, with the fetch made from the current
    render. *)
Lemma fetchLists_replaces_collection_witness :
  let s := signedInAs "bob" in
  let w := idle (mkState [] EmptyString false false) in
  supabase (session (render s w)) = true
  /\ activeListId
       (state (exec (fetchTodoLists (render s w) 1) [rows [listA; listB]] w))
     = "A".
Proof.
  intros s w.
  assert (H : supabase (session (render s w)) = true) by reflexivity.
  split; [exact H|].
  destruct (fetchLists_replaces_collection (render s w) w 0 listA [listB] [] H)
    as (_ & Hactive & _).
  exact (Hactive eq_refl).
Defined.

(** The world in which a fetch from a signed-in render, answered with an
    empty result, ends. *)
Lemma fetchLists_empty_world (u : option string) (seen0 : State) (fuel : nat)
    (empty ri rf : Response) (rs : list Response)
    st sn pd co ca gen dr sk :
  isCreatingList seen0 = false ->
  emptyResult empty ->
  ~ emptyResult rf ->
  exec (fetchTodoLists (mkRender (mkSession true u true) seen0) (S (S fuel)))
       (empty :: ri :: rf :: rs) (mkWorld st sn pd co ca gen dr sk)
  = mkWorld (mkState [defaultList (gen dr)] (gen dr) true false)
            (sn ++ [Select u; Insert (defaultList (gen dr)) u]
                ++ (if error ri then [] else [Select u]))
            pd
            (co ++ (if error ri then ["Error creating list:"]
                    else if error rf then ["Error fetching todo lists:"]
                    else []))
            (ca ++ [CallCreateList (defaultList (gen dr))]) gen (S dr) sk.
Proof.
  intros Hcreating (Hok & Hnone) Hrefetch.
  destruct seen0 as [ls act ini cre]. cbn in Hcreating. subst cre.
  destruct empty as [d e]. cbn in Hok, Hnone. subst e.
  assert (Hd : match d with Some (_ :: _) => False | _ => True end)
    by (destruct Hnone as [-> | ->]; exact I).
  unfold exec. cbn [run fetchTodoLists session supabase negb pending user].
  unfold suspend. cbn [sent pending state console calls uuidv4 drawn stuck].
  rewrite drive_step. cbn [error data].
  destruct ri as [di ei], rf as [df ef].
  assert (Hdf : ef = false -> exists y ys, df = Some (y :: ys)).
  { intros ->. destruct df as [[|y ys]|]; eauto;
      exfalso; apply Hrefetch; split; cbn; auto. }
  clear Hrefetch.
  destruct d as [[|x xs]|]; try contradiction;
    world_nf; destruct (act =? EmptyString);
    (destruct ei; [run_task; now rewrite <- app_assoc|]);
    (destruct ef; [run_task; now rewrite <- !app_assoc|]);
    destruct (Hdf eq_refl) as (y & ys & ->);
    run_task; now rewrite <- !app_assoc, app_nil_r.
Qed.

(** The same fetch from a render that saw a [createList] under way:
    [createList] returns at its guard. *)
Lemma fetchLists_empty_world_dropped (u : option string) (seen0 : State)
    (fuel : nat) (empty : Response) (rs : list Response)
    st sn pd co ca gen dr sk :
  isCreatingList seen0 = true ->
  emptyResult empty ->
  exec (fetchTodoLists (mkRender (mkSession true u true) seen0) (S fuel))
       (empty :: rs) (mkWorld st sn pd co ca gen dr sk)
  = mkWorld (mkState [defaultList (gen dr)] (gen dr) true (isCreatingList st))
            (sn ++ [Select u]) pd co
            (ca ++ [CallCreateList (defaultList (gen dr))]) gen (S dr) sk.
Proof.
  intros Hcreating (Hok & Hnone).
  destruct seen0 as [ls act ini cre]. cbn in Hcreating. subst cre.
  destruct empty as [d e]. cbn in Hok, Hnone. subst e.
  destruct Hnone as [-> | ->]; run_task; reflexivity.
Qed.

(** C5 fails in two situations.  A fetch made from a render that saw a
    [createList] under way and answered with an empty result sends no
    insert, and still makes the default list the collection and the active
    list.  And when the refetch that follows the insert is answered empty
    again, a second default list is inserted. *)
Lemma fetchLists_empty_not_always_one_insert :
  let creating := idle (mkState [] EmptyString false true) in
  let dropped := exec (fetchTodoLists (render (signedInAs "bob") creating) 3)
                      [rows []] creating in
  let quiet := idle (mkState [] EmptyString false false) in
  let twice := exec (fetchTodoLists (render (signedInAs "bob") quiet) 3)
                    [rows []; ok; rows []; ok; rows [secondDefault; firstDefault]]
                    quiet in
  emptyResult (rows [])
  /\ lists (state dropped) = [firstDefault]
  /\ activeListId (state dropped) = "u0"
  /\ sent dropped = [Select (Some "bob")]
  /\ pending dropped = []
  /\ filter isInsert (sent twice)
     = [Insert firstDefault (Some "bob"); Insert secondDefault (Some "bob")]
  /\ lists (state twice) = [firstDefault]
  /\ pending twice = [].
Proof.
  repeat split; try reflexivity. left. reflexivity.
Qed.

(** C5 as amended: a fetch is made from a render of a signed-in session with
    a client and is answered with an empty result.  A list named "My Tasks"
    with no todos and the id [uuidv4()] returned is built, [createList] is
    called with it, and at the end of the task it is the whole collection and
    the active list.  If the render saw no [createList] under way, then,
    whatever the answer [ri] to the insert and provided the refetch after a
    successful insert is not itself answered empty, exactly one insert is
    sent, that of this list.  If the render saw a [createList] under way, no
    insert is sent. *)
Theorem fetchLists_empty_creates_default (c : Render) (w : World) (fuel : nat)
    (empty ri rf : Response) (rs : list Response) :
  supabase (session c) = true ->
  isSignedIn (session c) = true ->
  emptyResult empty ->
  ~ emptyResult rf ->
  let w' := exec (fetchTodoLists c (S (S fuel))) (empty :: ri :: rf :: rs) w in
  let created := TodoList.mk (uuidv4 w (drawn w)) "My Tasks" [] in
  let userId := user (session c) in
  lists (state w') = [created]
  /\ activeListId (state w') = TodoList.id created
  /\ isInitialized (state w') = true
  /\ calls w' = calls w ++ [CallCreateList created]
  /\ drawn w' = S (drawn w)
  /\ pending w' = pending w
  /\ stuck w' = stuck w
  /\ (isCreatingList (seen c) = false ->
        filter isInsert (sent w') = filter isInsert (sent w) ++ [Insert created userId]
        /\ sent w' = sent w ++ [Select userId; Insert created userId]
                            ++ (if error ri then [] else [Select userId])
        /\ isCreatingList (state w') = false)
  /\ (isCreatingList (seen c) = true ->
        sent w' = sent w ++ [Select userId]
        /\ isCreatingList (state w') = isCreatingList (state w)).
Proof.
  intros Hclient Hsigned Hempty Hrefetch w'.
  destruct w as [st sn pd co ca gen dr sk], c as [[si u cl] seen0].
  cbn in Hclient, Hsigned. subst cl si.
  unfold w'. cbn [seen session user].
  destruct (isCreatingList seen0) eqn:Hcreating.
  - rewrite (fetchLists_empty_world_dropped u seen0 (S fuel) empty (ri :: rf :: rs)
               st sn pd co ca gen dr sk Hcreating Hempty).
    cbn [state lists activeListId isInitialized isCreatingList calls sent drawn
         pending stuck uuidv4 defaultList TodoList.id].
    repeat (split; [reflexivity|]).
    split; [intros H; discriminate H | intros _; split; reflexivity].
  - rewrite (fetchLists_empty_world u seen0 fuel empty ri rf rs
               st sn pd co ca gen dr sk Hcreating Hempty Hrefetch).
    cbn [state lists activeListId isInitialized isCreatingList calls sent drawn
         pending stuck uuidv4 defaultList TodoList.id].
    repeat (split; [reflexivity|]).
    split; [intros _ | intros H; discriminate H].
    split; [|split; reflexivity].
    rewrite !filter_app. cbn [filter isInsert].
    destruct (error ri); reflexivity.
Qed.

(** First load of a signed-in user who has no list yet. *)
Lemma fetchLists_empty_creates_default_witness :
  let w := idle (mkState [] EmptyString false false) in
  let c := render (signedInAs "bob") w in
  supabase (session c) = true
  /\ isSignedIn (session c) = true
  /\ emptyResult (rows [])
  /\ ~ emptyResult (rows [firstDefault])
  /\ filter isInsert
       (sent (exec (fetchTodoLists c 2) [rows []; ok; rows [firstDefault]] w))
     = [Insert firstDefault (Some "bob")].
Proof.
  intros w c.
  assert (H1 : supabase (session c) = true) by reflexivity.
  assert (H2 : isSignedIn (session c) = true) by reflexivity.
  assert (H3 : emptyResult (rows [])) by (split; [reflexivity | left; reflexivity]).
  assert (H4 : ~ emptyResult (rows [firstDefault])).
  { intros (_ & [H | H]); discriminate H. }
  repeat (split; [assumption|]).
  destruct (fetchLists_empty_creates_default c w 0 (rows []) ok (rows [firstDefault]) []
              H1 H2 H3 H4)
    as (_ & _ & _ & _ & _ & _ & _ & Hinsert & _).
  exact (proj1 (Hinsert eq_refl)).
Defined.

(** ** createList while another createList is under way *)

(** C7, on the code.  [createList] tests the [isCreatingList] its render saw.
    In a signed-in session:
    - a second [createList] made from the closures of the same render as the
      first, while the first waits for its insert, sends a second insert,
      although the live flag is set;
    - two change events handled by one subscription callback, both fetches
      answered with an empty result before any insert is answered, insert two
      default lists;
    - only a call made from a render that saw the flag set is dropped: it
      leaves state, requests and waiting continuations as they were. *)
Theorem createList_guard_reads_render_flag :
  let s := signedInAs "bob" in
  let c := render s freshSignedIn in
  let first := run (createList c 2 listOne) freshSignedIn in
  let second := run (createList c 2 listTwo) first in
  let events := run (onChange c 2) (run (onChange c 2) freshSignedIn) in
  let answered := deliver 0 (rows []) (deliver 0 (rows []) events) in
  let later := run (createList (render s first) 2 listTwo) first in
  isCreatingList (state first) = true
  /\ sent first = [Insert listOne (Some "bob")]
  /\ sent second = [Insert listOne (Some "bob"); Insert listTwo (Some "bob")]
  /\ List.length (pending second) = 2
  /\ filter isInsert (sent answered)
     = [Insert (TodoList.mk "u0" "My Tasks" []) (Some "bob");
        Insert (TodoList.mk "u1" "My Tasks" []) (Some "bob")]
  /\ state later = state first
  /\ sent later = sent first
  /\ List.length (pending later) = List.length (pending first).
Proof.
  repeat split; reflexivity.
Qed.

(** ** createList and deleteList without a signed-in user *)

Section LocalLists.
Variables (s : Session) (w : World) (rs : list Response) (fuel : nat).

Lemma createList_local (list : TodoList.t) :
  isSignedIn s = false ->
  isCreatingList (state w) = false ->
  let w' := perform s (fun c => createList c fuel list) rs w in
  state w' = mkState (lists (state w) ++ [list]) (TodoList.id list)
                     (isInitialized (state w)) false
  /\ sameTraffic w w'.
Proof.
  intros Hs Hc.
  destruct w as [[ls act ini cre] sn pd co ca gen dr sk], s as [si u cl].
  cbn in Hs, Hc. subst si cre.
  unfold sameTraffic. run_task. repeat split.
Qed.

Lemma createList_dropped (list : TodoList.t) :
  isCreatingList (state w) = true ->
  let w' := perform s (fun c => createList c fuel list) rs w in
  state w' = state w /\ sameTraffic w w'.
Proof.
  intros Hc.
  destruct w as [[ls act ini cre] sn pd co ca gen dr sk], s as [si u cl].
  cbn in Hc. subst cre.
  unfold sameTraffic. run_task. repeat split.
Qed.

Lemma createList_no_client (list : TodoList.t) :
  isSignedIn s = true ->
  supabase s = false ->
  let w' := perform s (fun c => createList c fuel list) rs w in
  lists (state w') = lists (state w)
  /\ activeListId (state w') = activeListId (state w)
  /\ sameTraffic w w'.
Proof.
  intros Hs Hc.
  destruct w as [[ls act ini cre] sn pd co ca gen dr sk], s as [si u cl].
  cbn in Hs, Hc. subst si cl.
  unfold sameTraffic. destruct cre; run_task; repeat split.
Qed.

Lemma deleteList_local (id : string) :
  isSignedIn s = false ->
  let w' := perform s (fun c => deleteList c fuel id) rs w in
  state w'
  = mkState (filter (fun l => negb (TodoList.id l =? id)) (lists (state w)))
            (if activeListId (state w) =? id
             then firstListId (render s w)
             else activeListId (state w))
            (isInitialized (state w)) (isCreatingList (state w))
  /\ sameTraffic w w'.
Proof.
  intros Hs.
  destruct w as [[ls act ini cre] sn pd co ca gen dr sk], s as [si u cl].
  cbn in Hs. subst si.
  unfold sameTraffic, perform, exec, render. world_nf.
  destruct (act =? id); run_task; repeat split.
Qed.

Lemma deleteList_no_client (id : string) :
  isSignedIn s = true ->
  supabase s = false ->
  perform s (fun c => deleteList c fuel id) rs w = w.
Proof.
  intros Hs Hc.
  destruct w as [st sn pd co ca gen dr sk], s as [si u cl].
  cbn in Hs, Hc. subst si cl.
  run_task. reflexivity.
Qed.
End LocalLists.

(** ** The operations that go through the remote store *)

Lemma fetch_settled (c : Render) (w : World) (fuel : nat) (r : Response)
    (rs : list Response) :
  supabase (session c) = true ->
  ~ emptyResult r ->
  let w' := exec (fetchTodoLists c (S fuel)) (r :: rs) w in
  state w' = fetched (activeListId (seen c)) r (state w)
  /\ sent w' = sent w ++ [Select (user (session c))]
  /\ pending w' = pending w.
Proof.
  intros Hclient Hr.
  destruct w as [[ls0 act0 ini0 cre0] sn pd co ca gen dr sk],
           c as [[si u cl] [ls act ini cre]], r as [d e].
  cbn in Hclient. subst cl. unfold fetched.
  destruct e; [run_task; repeat split|].
  destruct d as [[|x xs]|];
    try (exfalso; apply Hr; split; cbn; auto; fail).
  unfold exec. world_nf.
  destruct (act =? EmptyString); run_task; repeat split.
Qed.

(** [createList] from the current render of a signed-in session with a
    client: the insert is answered [ri], the refetch [rf]. *)
Lemma createList_remote (s : Session) (w : World) (fuel : nat)
    (ri rf : Response) (rs : list Response) (list : TodoList.t) :
  isSignedIn s = true ->
  supabase s = true ->
  isCreatingList (state w) = false ->
  ~ emptyResult rf ->
  let w' := perform s (fun c => createList c (S fuel) list) (ri :: rf :: rs) w in
  let st := state w in
  state w'
  = if error ri then setIsCreatingList false st
    else setIsCreatingList false
           (setActiveListId (TodoList.id list)
              (fetched (activeListId st) rf (setIsCreatingList true st))).
Proof.
  intros Hs Hc Hcre Hrf.
  destruct w as [[ls act ini cre] sn pd co ca gen dr sk], s as [si u cl],
           ri as [di ei], rf as [df ef].
  cbn in Hs, Hc, Hcre. subst si cl cre. unfold fetched.
  destruct ei; [run_task; reflexivity|].
  destruct ef; [run_task; reflexivity|].
  destruct df as [[|x xs]|];
    try (exfalso; apply Hrf; split; cbn; auto; fail).
  unfold perform, exec, render. world_nf.
  destruct (act =? EmptyString); run_task; reflexivity.
Qed.

(** [deleteList] from the current render of a signed-in session with a
    client: the delete is answered [rd], the refetch [rf]. *)
Lemma deleteList_remote (s : Session) (w : World) (fuel : nat)
    (id : string) (rd rf : Response) (rs : list Response) :
  isSignedIn s = true ->
  supabase s = true ->
  ~ emptyResult rf ->
  let w' := perform s (fun c => deleteList c (S fuel) id) (rd :: rf :: rs) w in
  let st := state w in
  state w' = if error rd then st else fetched (activeListId st) rf st.
Proof.
  intros Hs Hc Hrf.
  destruct w as [[ls act ini cre] sn pd co ca gen dr sk], s as [si u cl],
           rd as [dd ed], rf as [df ef].
  cbn in Hs, Hc. subst si cl. unfold fetched.
  destruct ed; [run_task; reflexivity|].
  destruct ef; [run_task; reflexivity|].
  destruct df as [[|x xs]|];
    try (exfalso; apply Hrf; split; cbn; auto; fail).
  unfold perform, exec, render. world_nf.
  destruct (act =? EmptyString); run_task; reflexivity.
Qed.

(** The first-load effect when it does not fetch. *)
Lemma initialize_local (s : Session) (w : World) (fuel : nat) (rs : list Response) :
  isSignedIn s && (match user s with Some _ => true | None => false end)
    && supabase s = false ->
  let w' := perform s (fun c => initialize c fuel) rs w in
  let uuid := uuidv4 w (drawn w) in
  state w'
  = (if isInitialized (state w) then state w
     else mkState [TodoList.mk uuid "My Tasks" []] uuid true
                  (isCreatingList (state w)))
  /\ sent w' = sent w /\ pending w' = pending w.
Proof.
  intros Hlocal.
  destruct w as [[ls act ini cre] sn pd co ca gen dr sk], s as [si u cl].
  cbn [isSignedIn user supabase] in Hlocal.
  unfold perform, exec, render, initialize.
  cbn [session isSignedIn user supabase seen isInitialized state].
  rewrite Hlocal.
  destruct ini; run_task; repeat split.
Qed.

(** ** Where the active list id stays valid *)

Lemma listIds_mapActive (c : Render) (rebuild : TodoList.t -> TodoList.t) :
  (forall l, TodoList.id (rebuild l) = TodoList.id l) ->
  listIds (mapActive c rebuild) = listIds (lists (seen c)).
Proof.
  intros Hid. unfold listIds, mapActive. rewrite map_map.
  apply map_ext. intros l.
  destruct (TodoList.id l =? activeListId (seen c)); [apply Hid | reflexivity].
Qed.

Lemma activeOk_same_ids (st st' : State) :
  activeListId st' = activeListId st ->
  listIds (lists st') = listIds (lists st) ->
  activeOk st -> activeOk st'.
Proof.
  unfold activeOk. intros -> ->. tauto.
Qed.

Lemma activeOk_syncedWith (s : Session) (w w' : World) (uuids : nat)
    (updatedTodos : list TodoItem.t) :
  syncedWith s w uuids updatedTodos w' ->
  activeOk (state w) -> activeOk (state w').
Proof.
  intros (-> & _). apply (activeOk_same_ids (state w)); [reflexivity|].
  apply (listIds_mapActive (render s w)). reflexivity.
Qed.

Lemma activeOk_flag (st : State) (flag : bool) :
  activeOk st -> activeOk (setIsCreatingList flag st).
Proof. exact (fun H => H). Qed.

Lemma keepsActive_not_empty (active : string) (r : Response) :
  keepsActive active r -> ~ emptyResult r.
Proof.
  intros [He | (x & xs & _ & Hd & _)] (Hok & Hnone).
  - congruence.
  - destruct Hnone; congruence.
Qed.

Lemma returnsList_not_empty (id : string) (r : Response) :
  returnsList id r -> ~ emptyResult r.
Proof.
  intros (x & xs & _ & Hd & _) (_ & Hnone). destruct Hnone; congruence.
Qed.

Lemma activeOk_fetched (st : State) (r : Response) :
  activeOk st ->
  keepsActive (activeListId st) r ->
  activeOk (fetched (activeListId st) r st).
Proof.
  intros Hok [He | (x & xs & He & Hd & Hin)]; unfold fetched; rewrite He;
    [exact Hok|].
  rewrite Hd. unfold activeOk. cbn [activeListId lists].
  destruct (activeListId st =? EmptyString) eqn:E.
  - right. left. reflexivity.
  - apply String.eqb_neq in E. destruct Hin as [Hin | Hin]; [contradiction|].
    right. exact Hin.
Qed.

Lemma In_listIds_filter (id active : string) (ls : list TodoList.t) :
  active <> id ->
  In active (listIds ls) ->
  In active (listIds (filter (fun l => negb (TodoList.id l =? id)) ls)).
Proof.
  intros Hne Hin. unfold listIds in *.
  apply in_map_iff in Hin. destruct Hin as (l & Hid & Hmem).
  apply in_map_iff. exists l. split; [exact Hid|].
  apply filter_In. split; [exact Hmem|].
  apply negb_true_iff, String.eqb_neq. congruence.
Qed.

(** C2 fails for [fetchLists]: a visitor with the local default list L
    active signs in and the fetch returns A and B.  The collection becomes
    [A; B] and the active list id stays "L", which names no list. *)
Lemma fetchLists_leaves_active_id_dangling :
  let w := idle (mkState [localDefault] "L" true false) in
  let w' := perform (signedInAs "bob") (fun c => fetchTodoLists c 1)
                    [rows [listA; listB]] w in
  activeOk (state w) /\ ~ activeOk (state w').
Proof.
  split.
  - right. left. reflexivity.
  - intros [H | [H | [H | []]]]; discriminate H.
Qed.

Lemma createList_insert_failed (s : Session) (w : World) (fuel : nat)
    (ri : Response) (rs : list Response) (list : TodoList.t) :
  isSignedIn s = true ->
  supabase s = true ->
  isCreatingList (state w) = false ->
  error ri = true ->
  state (perform s (fun c => createList c fuel list) (ri :: rs) w)
  = setIsCreatingList false (state w).
Proof.
  intros Hs Hc Hcre He.
  destruct w as [[ls act ini cre] sn pd co ca gen dr sk], s as [si u cl],
           ri as [di ei].
  cbn in Hs, Hc, Hcre, He. subst si cl cre ei.
  run_task. reflexivity.
Qed.

Lemma deleteList_delete_failed (s : Session) (w : World) (fuel : nat)
    (id : string) (rd : Response) (rs : list Response) :
  isSignedIn s = true ->
  supabase s = true ->
  error rd = true ->
  state (perform s (fun c => deleteList c fuel id) (rd :: rs) w) = state w.
Proof.
  intros Hs Hc He.
  destruct w as [[ls act ini cre] sn pd co ca gen dr sk], s as [si u cl],
           rd as [dd ed].
  cbn in Hs, Hc, He. subst si cl ed.
  run_task. reflexivity.
Qed.

(** C2 as amended: starting from a state whose active list id is empty or
    names a list of the collection, the state reached is again such a state
    - after [createTodo], [updateTodo], [deleteTodo], [duplicateTodo] and
      [updateListTitle], in any session;
    - after the first-load effect when it does not fetch;
    - with nobody signed in, after [createList] and after [deleteList] of a
      list that is not the active one;
    - after a fetch answered with an error, or with a non-empty result when
      no list was active or the active id is among the fetched lists, or
      with an empty result (the default list then being the collection);
    - signed in with a client, after [createList] when the insert fails or
      the refetch returns the new list, and after [deleteList] when the
      delete fails or the refetch keeps the active id as above.
    [rs] are answers arriving after those the operation uses. *)
Theorem active_id_stays_valid (s : Session) (w : World) (fuel : nat)
    (rs : list Response) :
  activeOk (state w) ->
  let after (handler : Render -> Prog) (answers : list Response) : State :=
    state (perform s handler (answers ++ rs) w) in
  let active := activeListId (state w) in
  (forall id newTitle updates,
      activeOk (after handleCreateTodo [])
      /\ activeOk (after (fun c => handleUpdateTodo c id updates) [])
      /\ activeOk (after (fun c => handleDeleteTodo c id) [])
      /\ activeOk (after (fun c => handleDuplicateTodo c id) [])
      /\ activeOk (after (fun c => updateListTitle c newTitle) []))
  /\ (isSignedIn s && (match user s with Some _ => true | None => false end)
        && supabase s = false ->
      activeOk (after (fun c => initialize c fuel) []))
  /\ (isSignedIn s = false ->
      forall l id,
        activeOk (after (fun c => createList c fuel l) [])
        /\ (id <> active -> activeOk (after (fun c => deleteList c fuel id) [])))
  /\ (supabase s = true ->
      forall r, keepsActive active r ->
        activeOk (after (fun c => fetchTodoLists c (S fuel)) [r]))
  /\ (supabase s = true -> isSignedIn s = true ->
      forall empty ri rf, emptyResult empty -> ~ emptyResult rf ->
        activeOk (after (fun c => fetchTodoLists c (S (S fuel))) [empty; ri; rf]))
  /\ (isSignedIn s = true -> supabase s = true ->
      forall l id ri rd rf,
        (error ri = true \/ returnsList (TodoList.id l) rf ->
         activeOk (after (fun c => createList c (S fuel) l) [ri; rf]))
        /\ (error rd = true \/ keepsActive active rf ->
            activeOk (after (fun c => deleteList c (S fuel) id) [rd; rf]))).
Proof.
  intros Hok after active. unfold after. cbn [app].
  split.
  { intros id newTitle updates.
    split; [eapply activeOk_syncedWith; [apply handleCreateTodo_effect | exact Hok]|].
    split; [eapply activeOk_syncedWith; [apply handleUpdateTodo_effect | exact Hok]|].
    split; [eapply activeOk_syncedWith; [apply handleDeleteTodo_effect | exact Hok]|].
    split.
    - destruct (find (fun todo => TodoItem.id todo =? id) (todos (render s w)))
        as [original|] eqn:Hfind.
      + eapply activeOk_syncedWith;
          [apply handleDuplicateTodo_effect, Hfind | exact Hok].
      + now rewrite handleDuplicateTodo_missing.
    - destruct (updateListTitle_effect s w rs newTitle) as (-> & _).
      apply (activeOk_same_ids (state w)); [reflexivity | | exact Hok].
      apply (listIds_mapActive (render s w)). reflexivity. }
  split.
  { intros Hlocal.
    destruct (initialize_local s w fuel rs Hlocal) as (-> & _).
    destruct (isInitialized (state w)); [exact Hok|].
    right. left. reflexivity. }
  split.
  { intros Hs l id. split.
    - destruct (isCreatingList (state w)) eqn:Hcre.
      + destruct (createList_dropped s w rs fuel l Hcre) as (-> & _). exact Hok.
      + destruct (createList_local s w rs fuel l Hs Hcre) as (-> & _).
        right. unfold listIds. cbn [lists activeListId].
        rewrite map_app. apply in_or_app. right. left. reflexivity.
    - intros Hne.
      destruct (deleteList_local s w rs fuel id Hs) as (-> & _).
      destruct (activeListId (state w) =? id) eqn:E.
      + apply String.eqb_eq in E. fold active in E. congruence.
      + destruct Hok as [Hok | Hok]; [left; exact Hok | right].
        cbn [lists activeListId].
        apply In_listIds_filter; [fold active; congruence | exact Hok]. }
  split.
  { intros Hc r Hr.
    destruct (fetch_settled (render s w) w fuel r rs Hc
                (keepsActive_not_empty _ _ Hr)) as (Hstate & _).
    unfold perform. rewrite Hstate. now apply activeOk_fetched. }
  split.
  { intros Hc Hs empty ri rf Hempty Hrf.
    destruct w as [st sn pd co ca gen dr sk], s as [si u cl].
    cbn in Hc, Hs. subst si cl.
    unfold perform, render. cbn [state].
    destruct (isCreatingList st) eqn:Hcre.
    - rewrite (fetchLists_empty_world_dropped u st (S fuel) empty (ri :: rf :: rs)
                 st sn pd co ca gen dr sk Hcre Hempty).
      right. left. reflexivity.
    - rewrite (fetchLists_empty_world u st fuel empty ri rf rs
                 st sn pd co ca gen dr sk Hcre Hempty Hrf).
      right. left. reflexivity. }
  intros Hs Hc l id ri rd rf. split.
  - intros Hanswers.
    destruct (isCreatingList (state w)) eqn:Hcre.
    { destruct (createList_dropped s w (ri :: rf :: rs) (S fuel) l Hcre) as (-> & _).
      exact Hok. }
    destruct (error ri) eqn:Hri.
    { rewrite createList_insert_failed by assumption. now apply activeOk_flag. }
    destruct Hanswers as [Habs | Hreturns]; [discriminate Habs|].
    rewrite (createList_remote s w fuel ri rf rs l Hs Hc Hcre
               (returnsList_not_empty _ _ Hreturns)).
    rewrite Hri.
    destruct Hreturns as (x & xs & He & Hd & Hin).
    unfold fetched. rewrite He, Hd. right. exact Hin.
  - intros Hanswers.
    destruct (error rd) eqn:Hrd.
    { now rewrite deleteList_delete_failed. }
    destruct Hanswers as [Habs | Hkeeps]; [discriminate Habs|].
    rewrite (deleteList_remote s w fuel id rd rf rs Hs Hc
               (keepsActive_not_empty _ _ Hkeeps)).
    rewrite Hrd. now apply activeOk_fetched.
Qed.

(** From lists A and B with A active: a new todo with nobody signed in, and
    deleting list B. *)
Lemma active_id_stays_valid_witness :
  let w := idle (mkState [listWork; listB] "A" true false) in
  activeOk (state w)
  /\ activeOk (state (perform anonymous handleCreateTodo [] w))
  /\ activeOk (state (perform anonymous (fun c => deleteList c 0 "B") [] w)).
Proof.
  intros w.
  assert (H : activeOk (state w)) by (right; left; reflexivity).
  split; [exact H|].
  destruct (active_id_stays_valid anonymous w 0 [] H) as (Htodo & _ & Hlocal & _).
  split.
  - exact (proj1 (Htodo "t1" "Work" completedOnly)).
  - refine (proj2 (Hlocal eq_refl listB "B") _). discriminate.
Defined.

(** ** Sequences of mutations without the remote store *)

Lemma unique_active (a : string) (ls : list TodoList.t) (found l : TodoList.t) :
  NoDup (listIds ls) ->
  find (fun x => TodoList.id x =? a) ls = Some found ->
  In l ls -> TodoList.id l = a -> l = found.
Proof.
  induction ls as [|x ls IH]; [discriminate|].
  cbn. intros Hnodup Hfind Hin Hid.
  apply NoDup_cons_iff in Hnodup. destruct Hnodup as (Hfresh & Hnodup).
  destruct (TodoList.id x =? a) eqn:E.
  - injection Hfind as <-. destruct Hin as [-> | Hin]; [reflexivity|].
    exfalso. apply Hfresh. apply String.eqb_eq in E. rewrite E, <- Hid.
    now apply in_map.
  - destruct Hin as [-> | Hin]; [|now apply IH].
    apply String.eqb_neq in E. contradiction.
Qed.

Lemma active_todos (c : Render) (l : TodoList.t) :
  NoDup (listIds (lists (seen c))) ->
  In l (lists (seen c)) ->
  TodoList.id l = activeListId (seen c) ->
  todos c = TodoList.todos l.
Proof.
  intros Hnodup Hin Hid. unfold todos, activeList.
  destruct (find _ _) as [found|] eqn:Hfind.
  - now rewrite (unique_active _ _ found l Hnodup Hfind Hin Hid).
  - apply (find_none _ _ Hfind) in Hin. apply String.eqb_neq in Hin. contradiction.
Qed.

(** With list ids unique, giving the entries that carry the active id the
    sequence computed from [todos] is changing the active list's sequence. *)
Lemma mapActive_onActive (c : Render)
    (change : list TodoItem.t -> list TodoItem.t) :
  NoDup (listIds (lists (seen c))) ->
  mapActive c (fun l => TodoList.with_todos l (change (todos c)))
  = Spec.onActive (activeListId (seen c)) change (lists (seen c)).
Proof.
  intros Hnodup. unfold mapActive, Spec.onActive.
  apply map_ext_in. intros l Hin.
  destruct (TodoList.id l =? activeListId (seen c)) eqn:E; [|reflexivity].
  apply String.eqb_eq in E.
  now rewrite (active_todos c l Hnodup Hin E).
Qed.

Lemma onActive_unchanged (a : string)
    (change : list TodoItem.t -> list TodoItem.t) (ls : list TodoList.t) :
  (forall l, In l ls -> TodoList.id l = a ->
             change (TodoList.todos l) = TodoList.todos l) ->
  Spec.onActive a change ls = ls.
Proof.
  intros Hsame. unfold Spec.onActive.
  rewrite <- (map_id ls) at 2. apply map_ext_in. intros l Hin.
  destruct (TodoList.id l =? a) eqn:E; [|reflexivity].
  apply String.eqb_eq in E. rewrite (Hsame l Hin E). now destruct l.
Qed.

Lemma NoDup_listIds_filter (p : TodoList.t -> bool) (ls : list TodoList.t) :
  NoDup (listIds ls) -> NoDup (listIds (filter p ls)).
Proof.
  unfold listIds. induction ls as [|x ls IH]; [trivial|].
  cbn. intros Hnodup. apply NoDup_cons_iff in Hnodup.
  destruct Hnodup as (Hfresh & Hnodup).
  destruct (p x); [|now apply IH].
  cbn. apply NoDup_cons; [|now apply IH].
  intros Hin. apply Hfresh.
  apply in_map_iff in Hin. destruct Hin as (l & Hid & Hmem).
  apply filter_In in Hmem. apply in_map_iff. exists l. tauto.
Qed.

Lemma NoDup_listIds_app (new : TodoList.t) (ls : list TodoList.t) :
  NoDup (listIds ls) ->
  ~ In (TodoList.id new) (listIds ls) ->
  NoDup (listIds (ls ++ [new])).
Proof.
  intros Hnodup Hfresh. unfold listIds in *. rewrite map_app. cbn.
  apply NoDup_app; [exact Hnodup | repeat constructor; intros [] |].
  intros x Hin [<- | []]. contradiction.
Qed.

(** One mutation with nobody signed in: the collection changes as the
    specification says, and the conditions carry over to the next one. *)
Lemma apply_local (s : Session) (fuel : nat) (op : Op) (w : World) :
  isSignedIn s = false ->
  isCreatingList (state w) = false ->
  NoDup (listIds (lists (state w))) ->
  freshList op w ->
  let w' := apply s fuel w op in
  lists (state w')
  = Spec.apply (activeListId (state w)) (uuidv4 w (drawn w)) op (lists (state w))
  /\ isCreatingList (state w') = false
  /\ NoDup (listIds (lists (state w'))).
Proof.
  intros Hs Hcre Hnodup Hfresh.
  assert (Hsynced : forall uuids change w',
             syncedWith s w uuids (change (todos (render s w))) w' ->
             lists (state w')
             = Spec.onActive (activeListId (state w)) change (lists (state w))
             /\ isCreatingList (state w') = false
             /\ NoDup (listIds (lists (state w')))).
  { intros uuids change w' (Hstate & _). rewrite Hstate.
    unfold rebuilt. cbn [setLists lists isCreatingList].
    split; [exact (mapActive_onActive (render s w) change Hnodup)|].
    split; [exact Hcre|].
    rewrite (listIds_mapActive (render s w)); [exact Hnodup | reflexivity]. }
  destruct op as [new | id | newTitle | | id updates | id | id];
    unfold apply, handler; cbn [Spec.apply].
  - destruct (createList_local s w [] fuel new Hs Hcre) as (Hstate & _).
    cbn zeta in Hstate. rewrite Hstate. cbn [lists isCreatingList].
    split; [reflexivity|]. split; [reflexivity|].
    now apply NoDup_listIds_app.
  - destruct (deleteList_local s w [] fuel id Hs) as (Hstate & _).
    cbn zeta in Hstate. rewrite Hstate. cbn [lists isCreatingList].
    split; [reflexivity|]. split; [exact Hcre|].
    now apply NoDup_listIds_filter.
  - destruct (updateListTitle_effect s w [] newTitle) as (Hstate & _).
    rewrite Hstate. cbn [setLists lists isCreatingList].
    split; [reflexivity|]. split; [exact Hcre|].
    rewrite (listIds_mapActive (render s w)); [exact Hnodup | reflexivity].
  - exact (Hsynced 1 (fun ts => ts ++ [emptyTodo (uuidv4 w (drawn w))]) _
             (handleCreateTodo_effect s w [])).
  - exact (Hsynced 0 (mergedTodos id updates) _
             (handleUpdateTodo_effect s w [] id updates)).
  - exact (Hsynced 0 (keptTodos id) _ (handleDeleteTodo_effect s w [] id)).
  - destruct (find (fun todo => TodoItem.id todo =? id) (todos (render s w)))
      as [original|] eqn:Hfind.
    + apply (Hsynced 1 (fun ts =>
               match find (fun t => TodoItem.id t =? id) ts with
               | Some o => ts ++ [copyOf o (uuidv4 w (drawn w))]
               | None => ts
               end)).
      rewrite Hfind. now apply handleDuplicateTodo_effect.
    + rewrite handleDuplicateTodo_missing by exact Hfind.
      split; [|split; assumption].
      unfold Spec.duplicateTodo. rewrite onActive_unchanged; [reflexivity|].
      intros l Hin Hid.
      rewrite <- (active_todos (render s w) l Hnodup Hin Hid), Hfind.
      reflexivity.
Qed.

(** In any session, a mutation of the active list changes the collection as
    the specification says, provided list ids are unique. *)
Lemma apply_on_active_list (s : Session) (fuel : nat) (op : Op) (w : World) :
  onActiveList op = true ->
  NoDup (listIds (lists (state w))) ->
  lists (state (apply s fuel w op))
  = Spec.apply (activeListId (state w)) (uuidv4 w (drawn w)) op (lists (state w)).
Proof.
  intros Hop Hnodup.
  assert (Hsynced : forall uuids change w',
             syncedWith s w uuids (change (todos (render s w))) w' ->
             lists (state w')
             = Spec.onActive (activeListId (state w)) change (lists (state w))).
  { intros uuids change w' (Hstate & _). rewrite Hstate.
    exact (mapActive_onActive (render s w) change Hnodup). }
  destruct op as [new | id | newTitle | | id updates | id | id];
    try discriminate Hop; unfold apply, handler; cbn [Spec.apply].
  - destruct (updateListTitle_effect s w [] newTitle) as (Hstate & _).
    rewrite Hstate. reflexivity.
  - exact (Hsynced 1 (fun ts => ts ++ [emptyTodo (uuidv4 w (drawn w))]) _
             (handleCreateTodo_effect s w [])).
  - exact (Hsynced 0 (mergedTodos id updates) _
             (handleUpdateTodo_effect s w [] id updates)).
  - exact (Hsynced 0 (keptTodos id) _ (handleDeleteTodo_effect s w [] id)).
  - destruct (find (fun todo => TodoItem.id todo =? id) (todos (render s w)))
      as [original|] eqn:Hfind.
    + apply (Hsynced 1 (fun ts =>
               match find (fun t => TodoItem.id t =? id) ts with
               | Some o => ts ++ [copyOf o (uuidv4 w (drawn w))]
               | None => ts
               end)).
      rewrite Hfind. now apply handleDuplicateTodo_effect.
    + rewrite handleDuplicateTodo_missing by exact Hfind.
      unfold Spec.duplicateTodo. rewrite onActive_unchanged; [reflexivity|].
      intros l Hin Hid.
      rewrite <- (active_todos (render s w) l Hnodup Hin Hid), Hfind.
      reflexivity.
Qed.

(** Without a signed-in user, or without a client, [syncList] only returns. *)
Lemma syncList_offline (c : Render) (listId : string)
    (updatedTodos : list TodoItem.t) (w : World) :
  isSignedIn (session c) = false \/ supabase (session c) = false ->
  run (syncList c listId updatedTodos) w
  = logCall (CallSyncList listId updatedTodos) w.
Proof.
  destruct c as [[[|] u [|]] seen0], w; cbn [session isSignedIn supabase];
    intros [H | H]; try discriminate H; reflexivity.
Qed.

(** One mutation without a signed-in user, or without a client, sends
    nothing and leaves nothing waiting. *)
Lemma apply_offline (s : Session) (fuel : nat) (op : Op) (w : World) :
  isSignedIn s = false \/ supabase s = false ->
  sent (apply s fuel w op) = sent w /\ pending (apply s fuel w op) = pending w.
Proof.
  intros Hoff.
  assert (Hcases : (isSignedIn s = false /\ supabase s = true)
                   \/ (isSignedIn s = false /\ supabase s = false)
                   \/ (isSignedIn s = true /\ supabase s = false)).
  { destruct (isSignedIn s), (supabase s), Hoff; auto; discriminate. }
  clear Hoff.
  destruct w as [[ls act ini cre] sn pd co ca gen dr sk], s as [si u cl].
  cbn [isSignedIn supabase] in Hcases.
  unfold apply, perform, exec, render.
  destruct op as [new | id | newTitle | | id updates | id | id];
    cbn [handler];
    try (unfold handleDuplicateTodo;
         destruct (find (fun todo => TodoItem.id todo =? id) _));
    try (unfold deleteList; cbn [seen activeListId state session isSignedIn];
         destruct (act =? id));
    destruct Hcases as [(-> & ->) | [(-> & ->) | (-> & ->)]];
    destruct cre; run_task; split; reflexivity.
Qed.

Lemma applyAll_offline (s : Session) (fuel : nat) (ops : list Op) (w : World) :
  isSignedIn s = false \/ supabase s = false ->
  sent (applyAll s fuel ops w) = sent w
  /\ pending (applyAll s fuel ops w) = pending w.
Proof.
  intros Hoff. revert w.
  induction ops as [|op ops IH]; intros w; [split; reflexivity|].
  cbn [applyAll fold_left].
  destruct (IH (apply s fuel w op)) as (Hsent & Hpending).
  destruct (apply_offline s fuel op w Hoff) as (Hsent1 & Hpending1).
  unfold applyAll in Hsent, Hpending.
  split; congruence.
Qed.

Lemma applyAll_reflected (s : Session) (fuel : nat) (ops : list Op) (w : World) :
  isSignedIn s = false ->
  isCreatingList (state w) = false ->
  NoDup (listIds (lists (state w))) ->
  freshLists s fuel ops w ->
  reflected s fuel ops w.
Proof.
  intros Hs. revert w.
  induction ops as [|op ops IH]; intros w Hcre Hnodup Hfresh; [exact I|].
  destruct Hfresh as (Hop & Hrest).
  destruct (apply_local s fuel op w Hs Hcre Hnodup Hop) as (Hlists & Hcre' & Hnodup').
  split; [exact Hlists|].
  now apply IH.
Qed.

(** C8 fails for a signed-in user whose client is not there yet:
    [createList(B)] on the collection [A] sends nothing and leaves the
    collection at [A], not at [A; B]. *)
Lemma createList_without_client_is_lost :
  let s := signedInNoClient "bob" in
  let w := idle (mkState [listA] "A" true false) in
  let ops := [OpCreateList listB] in
  (isSignedIn s = false \/ supabase s = false)
  /\ sent (applyAll s 1 ops w) = []
  /\ lists (state (applyAll s 1 ops w)) = [listA]
  /\ Spec.apply "A" "u0" (OpCreateList listB) [listA] = [listA; listB]
  /\ ~ reflected s 1 ops w.
Proof.
  repeat split; try reflexivity.
  - right. reflexivity.
  - intros (H & _). discriminate H.
Qed.

(** C8 as amended.  For every sequence of mutations made without a signed-in
    user or without a client: no request is sent and nothing is left
    waiting, and [syncList] changes neither the state nor the requests.  With
    nobody signed in, no [createList] under way, list ids unique and created
    lists bringing new ids, every mutation in order changes the collection as
    the specification says for the list active at that point.  With a
    signed-in user and no client, [createList] leaves the collection as it
    was and [deleteList] changes nothing, while [createTodo], [updateTodo],
    [deleteTodo], [duplicateTodo] and [updateListTitle] still change the
    collection as the specification says (list ids being unique), from any
    state. *)
Theorem offline_mutations_stay_local (s : Session) (fuel : nat) (ops : list Op)
    (w : World) :
  isSignedIn s = false \/ supabase s = false ->
  let w' := applyAll s fuel ops w in
  sent w' = sent w
  /\ pending w' = pending w
  /\ (forall c listId updatedTodos w0,
        session c = s ->
        let synced := run (syncList c listId updatedTodos) w0 in
        state synced = state w0 /\ sent synced = sent w0
        /\ pending synced = pending w0 /\ console synced = console w0)
  /\ (isSignedIn s = false ->
      isCreatingList (state w) = false ->
      NoDup (listIds (lists (state w))) ->
      freshLists s fuel ops w ->
      reflected s fuel ops w)
  /\ (isSignedIn s = true ->
      forall new id,
        lists (state (apply s fuel w (OpCreateList new))) = lists (state w)
        /\ apply s fuel w (OpDeleteList id) = w)
  /\ (forall op w0,
        onActiveList op = true ->
        NoDup (listIds (lists (state w0))) ->
        lists (state (apply s fuel w0 op))
        = Spec.apply (activeListId (state w0)) (uuidv4 w0 (drawn w0)) op
                     (lists (state w0))).
Proof.
  intros Hoff w'.
  destruct (applyAll_offline s fuel ops w Hoff) as (Hsent & Hpending).
  split; [exact Hsent|].
  split; [exact Hpending|].
  split.
  { intros c listId updatedTodos w0 <-.
    cbn zeta. rewrite (syncList_offline c listId updatedTodos w0 Hoff).
    repeat split. }
  split; [apply applyAll_reflected|].
  split; [|intros op w0; apply apply_on_active_list].
  intros Hs new id.
  assert (Hc : supabase s = false) by (destruct Hoff; congruence).
  split.
  - exact (proj1 (createList_no_client s w [] fuel new Hs Hc)).
  - now apply deleteList_no_client.
Qed.

(** A visitor adds list B (which becomes active), adds a todo to it, deletes
    list A and adds another todo. *)
Lemma offline_mutations_stay_local_witness :
  let w := idle (mkState [listWork] "A" true false) in
  let ops := [OpCreateList listB; OpCreateTodo; OpDeleteList "A"; OpCreateTodo] in
  (isSignedIn anonymous = false \/ supabase anonymous = false)
  /\ sent (applyAll anonymous 0 ops w) = []
  /\ reflected anonymous 0 ops w
  /\ lists (state (applyAll anonymous 0 ops w))
     = [TodoList.mk "B" "Home" [TodoItem.mk "u0" EmptyString false 0 true;
                                TodoItem.mk "u1" EmptyString false 0 true]].
Proof.
  intros w ops.
  assert (H : isSignedIn anonymous = false \/ supabase anonymous = false)
    by (left; reflexivity).
  split; [exact H|].
  destruct (offline_mutations_stay_local anonymous 0 ops w H)
    as (Hsent & _ & _ & Hreflected & _).
  split; [exact Hsent|].
  split; [|reflexivity].
  apply Hreflected; try reflexivity.
  - repeat constructor. intros [].
  - repeat split. cbn. intros [H1 | []]. discriminate H1.
Defined.


(** * Further properties of the component *)

(** ** First load *)

(** On first load without a signed-in user and client, whatever the
    collection held is replaced by one list named "My Tasks" with no todos,
    which is active; nothing is sent; and the effect running again (its
    dependencies changed, still without user and client) changes nothing. *)
Theorem initialize_first_load_once (s : Session) (w : World) (fuel : nat)
    (rs : list Response) :
  isSignedIn s && (match user s with Some _ => true | None => false end)
    && supabase s = false ->
  isInitialized (state w) = false ->
  let w1 := perform s (fun c => initialize c fuel) rs w in
  let uuid := uuidv4 w (drawn w) in
  lists (state w1) = [TodoList.mk uuid "My Tasks" []]
  /\ activeListId (state w1) = uuid
  /\ isInitialized (state w1) = true
  /\ activeOk (state w1)
  /\ sent w1 = sent w /\ pending w1 = pending w
  /\ perform s (fun c => initialize c fuel) rs w1 = w1.
Proof.
  intros Hlocal Hini.
  destruct w as [[ls act ini cre] sn pd co ca gen dr sk], s as [si u cl].
  cbn [isSignedIn user supabase] in Hlocal. cbn in Hini. subst ini.
  unfold perform, exec, render, initialize.
  cbn [session isSignedIn user supabase seen isInitialized state].
  rewrite Hlocal. run_task.
  repeat split. right. left. reflexivity.
Qed.

(** A visitor's first load over an empty state. *)
Lemma initialize_first_load_once_witness :
  let w := idle (mkState [] EmptyString false false) in
  isSignedIn anonymous
    && (match user anonymous with Some _ => true | None => false end)
    && supabase anonymous = false
  /\ isInitialized (state w) = false
  /\ lists (state (perform anonymous (fun c => initialize c 0) [] w))
     = [firstDefault].
Proof.
  intros w.
  assert (H1 : isSignedIn anonymous
               && (match user anonymous with Some _ => true | None => false end)
               && supabase anonymous = false) by reflexivity.
  assert (H2 : isInitialized (state w) = false) by reflexivity.
  split; [exact H1 | split; [exact H2|]].
  exact (proj1 (initialize_first_load_once anonymous w 0 [] H1 H2)).
Defined.

(** ** Failures of the remote store *)

(** A fetch made without a client does nothing at all.  A fetch whose
    request fails leaves the state as it was (in particular it does not mark
    the component initialized), logs one error and ends. *)
Theorem fetch_failure_keeps_state (c : Render) (w : World) (fuel : nat)
    (r : Response) (rs : list Response) :
  error r = true ->
  let w' := exec (fetchTodoLists c (S fuel)) (r :: rs) w in
  state w' = state w
  /\ pending w' = pending w
  /\ calls w' = calls w
  /\ (supabase (session c) = false -> w' = w)
  /\ (supabase (session c) = true ->
      sent w' = sent w ++ [Select (user (session c))]
      /\ console w' = console w ++ ["Error fetching todo lists:"]).
Proof.
  intros He.
  destruct w as [st sn pd co ca gen dr sk], c as [[si u [|]] seen0], r as [d e];
    cbn in He; subst e; run_task;
    repeat match goal with |- _ /\ _ => split end;
    try reflexivity; intros Hc;
    first [discriminate Hc | split; reflexivity].
Qed.

Lemma fetch_failure_keeps_state_witness :
  let w := idle (mkState [listA] "A" false false) in
  error failed = true
  /\ state (exec (fetchTodoLists (render (signedInAs "bob") w) 1) [failed] w)
     = mkState [listA] "A" false false.
Proof.
  intros w.
  assert (H : error failed = true) by reflexivity.
  split; [exact H|].
  exact (proj1 (fetch_failure_keeps_state (render (signedInAs "bob") w) w 0
                  failed [] H)).
Defined.

(** The optimistic local change of [createTodo], [updateTodo], [deleteTodo],
    [duplicateTodo] and [updateListTitle] is never undone: whatever the
    remote store answers, an error included, the state and the requests sent
    are those reached before any answer. *)
Theorem answers_never_undo_local_changes (s : Session) (w : World)
    (rs : list Response) (id newTitle : string) (updates : Partial.t) :
  let same (handler : Render -> Prog) :=
    state (perform s handler rs w) = state (perform s handler [] w)
    /\ sent (perform s handler rs w) = sent (perform s handler [] w) in
  same handleCreateTodo
  /\ same (fun c => handleUpdateTodo c id updates)
  /\ same (fun c => handleDeleteTodo c id)
  /\ same (fun c => handleDuplicateTodo c id)
  /\ same (fun c => updateListTitle c newTitle).
Proof.
  assert (Hsync : forall uuids ts w1 w2,
             syncedWith s w uuids ts w1 -> syncedWith s w uuids ts w2 ->
             state w1 = state w2 /\ sent w1 = sent w2).
  { intros uuids ts w1 w2 (H1 & _ & H1s & _) (H2 & _ & H2s & _).
    split; congruence. }
  cbn zeta.
  split; [eapply Hsync; apply handleCreateTodo_effect|].
  split; [eapply Hsync; apply handleUpdateTodo_effect|].
  split; [eapply Hsync; apply handleDeleteTodo_effect|].
  split.
  - destruct (find (fun todo => TodoItem.id todo =? id) (todos (render s w)))
      as [original|] eqn:Hfind.
    + eapply Hsync; apply handleDuplicateTodo_effect, Hfind.
    + rewrite !handleDuplicateTodo_missing by exact Hfind. split; reflexivity.
  - destruct (updateListTitle_effect s w rs newTitle) as (H1 & _ & H1s & _).
    destruct (updateListTitle_effect s w [] newTitle) as (H2 & _ & H2s & _).
    split; congruence.
Qed.

(** ** createList and deleteList of a signed-in user *)

(** While the insert of a signed-in [createList] is unanswered the flag is
    set and nothing else has changed.  If the insert fails, no list is
    added, the active list is the one of before, the failure is logged, no
    refetch is made and the flag is cleared again. *)
Theorem createList_insert_failure_adds_nothing (s : Session) (w : World)
    (fuel : nat) (ri : Response) (rs : list Response) (new : TodoList.t) :
  isSignedIn s = true ->
  supabase s = true ->
  isCreatingList (state w) = false ->
  error ri = true ->
  let waiting := perform s (fun c => createList c fuel new) [] w in
  let w' := perform s (fun c => createList c fuel new) (ri :: rs) w in
  state waiting = setIsCreatingList true (state w)
  /\ sent waiting = sent w ++ [Insert new (user s)]
  /\ List.length (pending waiting) = S (List.length (pending w))
  /\ state w' = state w
  /\ sent w' = sent w ++ [Insert new (user s)]
  /\ console w' = console w ++ ["Error creating list:"]
  /\ pending w' = pending w.
Proof.
  intros Hs Hc Hcre He.
  destruct w as [[ls act ini cre] sn pd co ca gen dr sk], s as [si u cl],
           ri as [di ei].
  cbn in Hs, Hc, Hcre, He. subst si cl cre ei.
  run_task. repeat split.
  rewrite length_app. cbn. lia.
Qed.

Lemma createList_insert_failure_adds_nothing_witness :
  let w := idle (mkState [listA] "A" true false) in
  isSignedIn (signedInAs "bob") = true
  /\ supabase (signedInAs "bob") = true
  /\ isCreatingList (state w) = false
  /\ error failed = true
  /\ state (perform (signedInAs "bob") (fun c => createList c 1 listB) [failed] w)
     = state w.
Proof.
  intros w.
  split; [reflexivity | split; [reflexivity | split; [reflexivity | split;
    [reflexivity|]]]].
  destruct (createList_insert_failure_adds_nothing (signedInAs "bob") w 1 failed []
              listB eq_refl eq_refl eq_refl eq_refl)
    as (_ & _ & _ & Hstate & _).
  exact Hstate.
Defined.

(** When the insert of a signed-in [createList] succeeds, the refetched rows
    become the collection and the new list's id becomes the active id, also
    when another list was active; the active id names a list exactly when the
    refetch returned the new list. *)
Theorem createList_signed_in_activates_new_list (s : Session) (w : World)
    (fuel : nat) (ri rf : Response) (rs : list Response)
    (new first : TodoList.t) (rest : list TodoList.t) :
  isSignedIn s = true ->
  supabase s = true ->
  isCreatingList (state w) = false ->
  error ri = false ->
  error rf = false ->
  data rf = Some (first :: rest) ->
  TodoList.id new <> EmptyString ->
  let w' := perform s (fun c => createList c (S fuel) new) (ri :: rf :: rs) w in
  lists (state w') = first :: rest
  /\ activeListId (state w') = TodoList.id new
  /\ isInitialized (state w') = true
  /\ isCreatingList (state w') = false
  /\ sent w' = sent w ++ [Insert new (user s); Select (user s)]
  /\ pending w' = pending w
  /\ (activeOk (state w') <-> In (TodoList.id new) (listIds (first :: rest))).
Proof.
  intros Hs Hc Hcre Hei Hef Hdata Hid.
  destruct w as [[ls act ini cre] sn pd co ca gen dr sk], s as [si u cl],
           ri as [di ei], rf as [df ef].
  cbn in Hs, Hc, Hcre, Hei, Hef, Hdata. subst si cl cre ei ef df.
  unfold perform, exec, render. world_nf.
  destruct (act =? EmptyString); run_task;
    rewrite <- app_assoc; cbn [app];
    repeat match goal with |- _ /\ _ => split end; try reflexivity;
    unfold activeOk; cbn [activeListId lists]; tauto.
Qed.

Lemma createList_signed_in_activates_new_list_witness :
  let w := idle (mkState [listA] "A" true false) in
  let s := signedInAs "bob" in
  isSignedIn s = true /\ supabase s = true
  /\ isCreatingList (state w) = false
  /\ error ok = false
  /\ error (rows [listB; listA]) = false
  /\ data (rows [listB; listA]) = Some [listB; listA]
  /\ TodoList.id listB <> EmptyString
  /\ activeListId
       (state (perform s (fun c => createList c 1 listB) [ok; rows [listB; listA]] w))
     = "B".
Proof.
  intros w s.
  assert (Hid : TodoList.id listB <> EmptyString) by discriminate.
  repeat (split; [first [reflexivity | exact Hid]|]).
  destruct (createList_signed_in_activates_new_list s w 0 ok (rows [listB; listA]) []
              listB listB [listA] eq_refl eq_refl eq_refl eq_refl eq_refl eq_refl Hid)
    as (_ & Hactive & _).
  exact Hactive.
Defined.

(** When the insert succeeds and the refetch fails, the collection is the
    one of before and the active id is the new list's id all the same: if the
    collection does not hold that id, the active id names no list. *)
Theorem createList_refetch_failure_activates_absent_list (s : Session)
    (w : World) (fuel : nat) (ri rf : Response) (rs : list Response)
    (new : TodoList.t) :
  isSignedIn s = true ->
  supabase s = true ->
  isCreatingList (state w) = false ->
  error ri = false ->
  error rf = true ->
  TodoList.id new <> EmptyString ->
  ~ In (TodoList.id new) (listIds (lists (state w))) ->
  let w' := perform s (fun c => createList c (S fuel) new) (ri :: rf :: rs) w in
  lists (state w') = lists (state w)
  /\ activeListId (state w') = TodoList.id new
  /\ isCreatingList (state w') = false
  /\ ~ activeOk (state w')
  /\ sent w' = sent w ++ [Insert new (user s); Select (user s)]
  /\ console w' = console w ++ ["Error fetching todo lists:"].
Proof.
  intros Hs Hc Hcre Hei Hef Hid Hfresh.
  destruct w as [[ls act ini cre] sn pd co ca gen dr sk], s as [si u cl],
           ri as [di ei], rf as [df ef].
  cbn in Hs, Hc, Hcre, Hei, Hef, Hfresh. subst si cl cre ei ef.
  run_task. rewrite <- app_assoc. cbn [app].
  repeat match goal with |- _ /\ _ => split end; try reflexivity.
  unfold activeOk. cbn [activeListId lists]. tauto.
Qed.

Lemma createList_refetch_failure_activates_absent_list_witness :
  let w := idle (mkState [listA] "A" true false) in
  let s := signedInAs "bob" in
  isSignedIn s = true /\ supabase s = true
  /\ isCreatingList (state w) = false
  /\ error ok = false /\ error failed = true
  /\ TodoList.id listB <> EmptyString
  /\ ~ In (TodoList.id listB) (listIds (lists (state w)))
  /\ activeListId
       (state (perform s (fun c => createList c 1 listB) [ok; failed] w))
     = "B".
Proof.
  intros w s.
  assert (Hid : TodoList.id listB <> EmptyString) by discriminate.
  assert (Hfresh : ~ In (TodoList.id listB) (listIds (lists (state w)))).
  { intros [H | []]. discriminate H. }
  repeat (split; [first [reflexivity | exact Hid | exact Hfresh]|]).
  destruct (createList_refetch_failure_activates_absent_list s w 0 ok failed []
              listB eq_refl eq_refl eq_refl eq_refl eq_refl Hid Hfresh)
    as (_ & Hactive & _).
  exact Hactive.
Defined.

(** A signed-in [deleteList] removes nothing locally: until the remote store
    answers, and when the delete fails, the state is the one of before; a
    failed delete is logged and no refetch follows. *)
Theorem deleteList_signed_in_waits_for_store (s : Session) (w : World)
    (fuel : nat) (id : string) (rd : Response) (rs : list Response) :
  isSignedIn s = true ->
  supabase s = true ->
  error rd = true ->
  let waiting := perform s (fun c => deleteList c fuel id) [] w in
  let w' := perform s (fun c => deleteList c fuel id) (rd :: rs) w in
  state waiting = state w
  /\ sent waiting = sent w ++ [Delete id]
  /\ List.length (pending waiting) = S (List.length (pending w))
  /\ state w' = state w
  /\ sent w' = sent w ++ [Delete id]
  /\ console w' = console w ++ ["Error deleting list:"]
  /\ pending w' = pending w.
Proof.
  intros Hs Hc He.
  destruct w as [[ls act ini cre] sn pd co ca gen dr sk], s as [si u cl],
           rd as [dd ed].
  cbn in Hs, Hc, He. subst si cl ed.
  run_task. repeat split.
  rewrite length_app. cbn. lia.
Qed.

Lemma deleteList_signed_in_waits_for_store_witness :
  let w := idle (mkState [listA; listB] "A" true false) in
  let s := signedInAs "bob" in
  isSignedIn s = true /\ supabase s = true /\ error failed = true
  /\ state (perform s (fun c => deleteList c 1 "A") [failed] w) = state w.
Proof.
  intros w s.
  repeat (split; [reflexivity|]).
  destruct (deleteList_signed_in_waits_for_store s w 1 "A" failed []
              eq_refl eq_refl eq_refl)
    as (_ & _ & _ & Hstate & _).
  exact Hstate.
Defined.

(** ** deleteList of a visitor *)

Lemma filter_other_ids (id : string) (ls : list TodoList.t) :
  ~ In id (listIds ls) ->
  filter (fun l => negb (TodoList.id l =? id)) ls = ls.
Proof.
  unfold listIds. induction ls as [|x ls IH]; [reflexivity|].
  cbn. intros H. destruct (TodoList.id x =? id) eqn:E.
  - apply String.eqb_eq in E. tauto.
  - cbn. rewrite IH; tauto.
Qed.

(** With nobody signed in, deleting the active list when it is not the first
    of the collection makes the first list active, and that list is still in
    the collection. *)
Theorem deleteList_active_not_first_activates_first (s : Session) (w : World)
    (fuel : nat) (rs : list Response) (first : TodoList.t)
    (rest : list TodoList.t) :
  isSignedIn s = false ->
  lists (state w) = first :: rest ->
  TodoList.id first <> activeListId (state w) ->
  let id := activeListId (state w) in
  let w' := perform s (fun c => deleteList c fuel id) rs w in
  activeListId (state w') = TodoList.id first
  /\ (exists kept, lists (state w') = first :: kept
                   /\ ~ In id (listIds kept)
                   /\ forall l, In l kept <-> In l rest /\ TodoList.id l <> id)
  /\ activeOk (state w')
  /\ sent w' = sent w.
Proof.
  intros Hs Hlists Hfirst id w'.
  destruct (deleteList_local s w rs fuel id Hs) as (Hstate & Hsent & _).
  fold w' in Hstate, Hsent. rewrite Hstate.
  assert (Hself : (activeListId (state w) =? id) = true) by apply String.eqb_refl.
  rewrite Hself.
  unfold firstListId. cbn [render seen lists activeListId].
  rewrite Hlists. cbn [filter].
  assert (E : (TodoList.id first =? id) = false) by now apply String.eqb_neq.
  rewrite E. cbn [negb].
  split; [reflexivity|].
  split.
  { exists (filter (fun l => negb (TodoList.id l =? id)) rest).
    split; [reflexivity|]. split.
    - unfold listIds. intros Hin. apply in_map_iff in Hin.
      destruct Hin as (l & Hid & Hmem). apply filter_In in Hmem.
      destruct Hmem as (_ & Hne). rewrite Hid, String.eqb_refl in Hne.
      discriminate Hne.
    - intros l. rewrite filter_In, negb_true_iff, String.eqb_neq. tauto. }
  split; [|exact Hsent].
  right. left. reflexivity.
Qed.

Lemma deleteList_active_not_first_activates_first_witness :
  let w := idle (mkState [listA; listB] "B" true false) in
  isSignedIn anonymous = false
  /\ lists (state w) = [listA; listB]
  /\ TodoList.id listA <> activeListId (state w)
  /\ activeListId (state (perform anonymous (fun c => deleteList c 0 "B") [] w))
     = "A".
Proof.
  intros w.
  assert (H : TodoList.id listA <> activeListId (state w)) by discriminate.
  split; [reflexivity | split; [reflexivity | split; [exact H|]]].
  exact (proj1 (deleteList_active_not_first_activates_first anonymous w 0 []
                  listA [listB] eq_refl eq_refl H)).
Defined.

(** With nobody signed in, deleting an id that no list carries leaves the
    collection as it was; the active id changes only if it was that very id. *)
Theorem deleteList_unknown_id_keeps_collection (s : Session) (w : World)
    (fuel : nat) (rs : list Response) (id : string) :
  isSignedIn s = false ->
  ~ In id (listIds (lists (state w))) ->
  let w' := perform s (fun c => deleteList c fuel id) rs w in
  lists (state w') = lists (state w)
  /\ (activeListId (state w) <> id -> state w' = state w)
  /\ sent w' = sent w /\ pending w' = pending w.
Proof.
  intros Hs Hmissing w'.
  destruct (deleteList_local s w rs fuel id Hs) as (Hstate & Hsent & Hpending & _).
  fold w' in Hstate, Hsent, Hpending. rewrite Hstate.
  cbn [lists]. rewrite filter_other_ids by exact Hmissing.
  split; [reflexivity|].
  split; [|split; assumption].
  intros Hne. apply String.eqb_neq in Hne. rewrite Hne.
  now destruct (state w).
Qed.

Lemma deleteList_unknown_id_keeps_collection_witness :
  let w := idle (mkState [listA; listB] "A" true false) in
  isSignedIn anonymous = false
  /\ ~ In "Z" (listIds (lists (state w)))
  /\ lists (state (perform anonymous (fun c => deleteList c 0 "Z") [] w))
     = [listA; listB].
Proof.
  intros w.
  assert (H : ~ In "Z" (listIds (lists (state w)))).
  { intros [H | [H | []]]; discriminate H. }
  split; [reflexivity | split; [exact H|]].
  exact (proj1 (deleteList_unknown_id_keeps_collection anonymous w 0 [] "Z"
                  eq_refl H)).
Defined.

(** With nobody signed in, creating a list whose id is new and deleting it
    again gives back the collection of before; the active list is then the
    first list of the collection, or still the deleted list's id when the
    collection is empty. *)
Theorem createList_then_deleteList_restores_collection (s : Session)
    (w : World) (fuel : nat) (new : TodoList.t) :
  isSignedIn s = false ->
  isCreatingList (state w) = false ->
  ~ In (TodoList.id new) (listIds (lists (state w))) ->
  let w' := applyAll s fuel [OpCreateList new; OpDeleteList (TodoList.id new)] w in
  lists (state w') = lists (state w)
  /\ activeListId (state w')
     = match lists (state w) with
       | first :: _ => TodoList.id first
       | [] => TodoList.id new
       end
  /\ isCreatingList (state w') = false
  /\ sent w' = sent w /\ pending w' = pending w.
Proof.
  intros Hs Hcre Hfresh w'. subst w'.
  change (applyAll s fuel [OpCreateList new; OpDeleteList (TodoList.id new)] w)
    with (perform s (fun c => deleteList c fuel (TodoList.id new)) []
            (perform s (fun c => createList c fuel new) [] w)).
  destruct (createList_local s w [] fuel new Hs Hcre)
    as (Hstate1 & Hsent1 & Hpending1 & _).
  set (w1 := perform s (fun c => createList c fuel new) [] w) in *.
  destruct (deleteList_local s w1 [] fuel (TodoList.id new) Hs)
    as (Hstate2 & Hsent2 & Hpending2 & _).
  cbn zeta in Hstate1. rewrite Hstate2. unfold firstListId.
  cbn [render seen]. rewrite Hstate1. cbn [lists activeListId isCreatingList].
  rewrite String.eqb_refl, filter_app. cbn [filter].
  rewrite String.eqb_refl. cbn [negb].
  rewrite filter_other_ids, app_nil_r by exact Hfresh.
  split; [reflexivity|].
  split; [now destruct (lists (state w))|].
  split; [reflexivity|].
  split; congruence.
Qed.

Lemma createList_then_deleteList_restores_collection_witness :
  let w := idle (mkState [listA] "A" true false) in
  isSignedIn anonymous = false
  /\ isCreatingList (state w) = false
  /\ ~ In (TodoList.id listB) (listIds (lists (state w)))
  /\ lists (state (applyAll anonymous 0
                     [OpCreateList listB; OpDeleteList (TodoList.id listB)] w))
     = [listA].
Proof.
  intros w.
  assert (H : ~ In (TodoList.id listB) (listIds (lists (state w)))).
  { intros [H | []]. discriminate H. }
  split; [reflexivity | split; [reflexivity | split; [exact H|]]].
  exact (proj1 (createList_then_deleteList_restores_collection anonymous w 0 listB
                  eq_refl eq_refl H)).
Defined.

(** ** The todo operations in more detail *)

(** [createTodo] on an active list appends, after the todos it held, one
    todo with the id drawn, an empty title, not completed, level 0 and
    [isEmpty] set, and hands the whole new sequence to [syncList]. *)
Theorem createTodo_appends_empty_todo (s : Session) (w : World)
    (rs : list Response) (active : TodoList.t) :
  activeList (render s w) = Some active ->
  let w' := perform s handleCreateTodo rs w in
  let old := TodoList.todos active in
  let new := todos (render s w') in
  let added := TodoItem.mk (uuidv4 w (drawn w)) EmptyString false 0 true in
  new = old ++ [added]
  /\ List.length new = S (List.length old)
  /\ (forall i todo, nth_error old i = Some todo -> nth_error new i = Some todo)
  /\ activeList (render s w') = Some (TodoList.with_todos active new)
  /\ calls w' = calls w ++ [CallSyncList (activeListId (state w)) new]
  /\ sent w' = sent w ++ syncRequests s (activeListId (state w)) new
  /\ drawn w' = S (drawn w).
Proof.
  intros Hactive w' old new added.
  assert (Htodos : todos (render s w) = old).
  { unfold todos. now rewrite Hactive. }
  pose proof (handleCreateTodo_effect s w rs) as Heffect.
  fold w' in Heffect. rewrite Htodos in Heffect.
  destruct (syncedWith_activeList s w 1 _ w' active Heffect Hactive) as (Hfound & Hnew).
  destruct Heffect as (_ & Hcalls & Hsent & Hdrawn).
  fold new in Hnew. rewrite Hnew.
  split; [reflexivity|].
  split; [rewrite length_app; cbn; lia|].
  split.
  { intros i todo Hi. rewrite nth_error_app1; [exact Hi|].
    apply nth_error_Some. congruence. }
  repeat split; assumption.
Qed.

Lemma createTodo_appends_empty_todo_witness :
  let w := idle (mkState [listWork; listB] "A" true false) in
  activeList (render anonymous w) = Some listWork
  /\ todos (render anonymous (perform anonymous handleCreateTodo [] w))
     = [todoT1; todoT2; TodoItem.mk "u0" EmptyString false 0 true].
Proof.
  intros w.
  assert (H : activeList (render anonymous w) = Some listWork) by reflexivity.
  split; [exact H|].
  exact (proj1 (createTodo_appends_empty_todo anonymous w [] listWork H)).
Defined.

(** [deleteTodo(id)] on an active list leaves exactly the todos whose id is
    not [id], in the order they had: afterwards no todo has that id, every
    other todo is still there, none was added, and [syncList] receives that
    sequence. *)
Theorem deleteTodo_removes_every_match (s : Session) (w : World)
    (rs : list Response) (active : TodoList.t) (id : string) :
  activeList (render s w) = Some active ->
  let w' := perform s (fun c => handleDeleteTodo c id) rs w in
  let old := TodoList.todos active in
  let new := todos (render s w') in
  ~ In id (map TodoItem.id new)
  /\ (forall todo, In todo new <-> In todo old /\ TodoItem.id todo <> id)
  /\ List.length new <= List.length old
  /\ (forall before after todo,
        old = before ++ todo :: after -> TodoItem.id todo <> id ->
        new = keptTodos id before ++ todo :: keptTodos id after)
  /\ calls w' = calls w ++ [CallSyncList (activeListId (state w)) new].
Proof.
  intros Hactive w' old new.
  assert (Htodos : todos (render s w) = old).
  { unfold todos. now rewrite Hactive. }
  pose proof (handleDeleteTodo_effect s w rs id) as Heffect.
  fold w' in Heffect. rewrite Htodos in Heffect.
  destruct (syncedWith_activeList s w 0 _ w' active Heffect Hactive) as (_ & Hnew).
  destruct Heffect as (_ & Hcalls & _).
  fold new in Hnew. rewrite Hnew. unfold keptTodos.
  split.
  { intros Hin. apply in_map_iff in Hin. destruct Hin as (todo & Hid & Hmem).
    apply filter_In in Hmem. destruct Hmem as (_ & Hne).
    rewrite Hid, String.eqb_refl in Hne. discriminate Hne. }
  split.
  { intros todo. rewrite filter_In, negb_true_iff, String.eqb_neq. tauto. }
  split; [apply filter_length_le|].
  split; [|exact Hcalls].
  intros before after todo -> Hne.
  rewrite filter_app. cbn [filter].
  apply String.eqb_neq in Hne. rewrite Hne. reflexivity.
Qed.

Lemma deleteTodo_removes_every_match_witness :
  let w := idle (mkState [listWork; listB] "A" true false) in
  activeList (render anonymous w) = Some listWork
  /\ ~ In "t1"
       (map TodoItem.id
          (todos (render anonymous
                    (perform anonymous (fun c => handleDeleteTodo c "t1") [] w)))).
Proof.
  intros w.
  assert (H : activeList (render anonymous w) = Some listWork) by reflexivity.
  split; [exact H|].
  exact (proj1 (deleteTodo_removes_every_match anonymous w [] listWork "t1" H)).
Defined.

(** When the active id names no list of the collection, [createTodo],
    [updateTodo], [deleteTodo], [duplicateTodo] and [updateListTitle] leave
    the collection as it was.  [createTodo] still calls [syncList], with a
    sequence holding only the new todo, and [deleteTodo] and [updateTodo]
    call it with the empty sequence; [duplicateTodo] does nothing. *)
Theorem without_active_list_collection_is_kept (s : Session) (w : World)
    (rs : list Response) (id newTitle : string) (updates : Partial.t) :
  activeList (render s w) = None ->
  let active := activeListId (state w) in
  let created := perform s handleCreateTodo rs w in
  let updated := perform s (fun c => handleUpdateTodo c id updates) rs w in
  let deleted := perform s (fun c => handleDeleteTodo c id) rs w in
  lists (state created) = lists (state w)
  /\ lists (state updated) = lists (state w)
  /\ lists (state deleted) = lists (state w)
  /\ perform s (fun c => handleDuplicateTodo c id) rs w = w
  /\ lists (state (perform s (fun c => updateListTitle c newTitle) rs w))
     = lists (state w)
  /\ calls created
     = calls w ++ [CallSyncList active
                     [TodoItem.mk (uuidv4 w (drawn w)) EmptyString false 0 true]]
  /\ calls updated = calls w ++ [CallSyncList active []]
  /\ calls deleted = calls w ++ [CallSyncList active []].
Proof.
  intros Hnone active created updated deleted.
  assert (Htodos : todos (render s w) = []).
  { unfold todos. now rewrite Hnone. }
  assert (Hkept : forall rebuild,
             mapActive (render s w) rebuild = lists (state w)).
  { intros rebuild. unfold mapActive. now apply find_rebuild_none. }
  assert (Hsynced : forall uuids ts w',
             syncedWith s w uuids ts w' ->
             lists (state w') = lists (state w)
             /\ calls w' = calls w ++ [CallSyncList active ts]).
  { intros uuids ts w' (-> & Hcalls & _). unfold rebuilt.
    cbn [setLists lists]. split; [apply Hkept | exact Hcalls]. }
  destruct (Hsynced _ _ _ (handleCreateTodo_effect s w rs)) as (Hc1 & Hc2).
  destruct (Hsynced _ _ _ (handleUpdateTodo_effect s w rs id updates)) as (Hu1 & Hu2).
  destruct (Hsynced _ _ _ (handleDeleteTodo_effect s w rs id)) as (Hd1 & Hd2).
  rewrite Htodos in Hc2, Hu2, Hd2.
  repeat match goal with |- _ /\ _ => split end; try assumption.
  - apply handleDuplicateTodo_missing. now rewrite Htodos.
  - destruct (updateListTitle_effect s w rs newTitle) as (-> & _).
    cbn [setLists lists]. apply Hkept.
Qed.

Lemma without_active_list_collection_is_kept_witness :
  let w := idle (mkState [listB] "A" true false) in
  activeList (render anonymous w) = None
  /\ lists (state (perform anonymous handleCreateTodo [] w)) = [listB].
Proof.
  intros w.
  assert (H : activeList (render anonymous w) = None) by reflexivity.
  split; [exact H|].
  exact (proj1 (without_active_list_collection_is_kept anonymous w [] "t1" "x"
                  completedOnly H)).
Defined.

(** ** Uniqueness of ids *)

(** Removing todos keeps the remaining ids pairwise different. *)
Lemma todo_ids_unique_filter (keep : TodoItem.t -> bool) (ts : list TodoItem.t) :
  NoDup (map TodoItem.id ts) -> NoDup (map TodoItem.id (filter keep ts)).
Proof.
  induction ts as [|t ts IH]; [trivial|].
  cbn. intros Hunique. apply NoDup_cons_iff in Hunique.
  destruct Hunique as (Hfresh & Hunique).
  destruct (keep t); [|now apply IH].
  cbn. apply NoDup_cons; [|now apply IH].
  intros Hin. apply Hfresh.
  apply in_map_iff in Hin. destruct Hin as (t' & Hid & Hmem).
  apply filter_In in Hmem. apply in_map_iff. exists t'. tauto.
Qed.

Lemma NoDup_map_snoc {A B : Type} (f : A -> B) (l : list A) (x : A) :
  NoDup (map f l) -> ~ In (f x) (map f l) -> NoDup (map f (l ++ [x])).
Proof.
  intros Hnodup Hfresh. rewrite map_app. cbn.
  apply NoDup_app; [exact Hnodup | repeat constructor; intros [] |].
  intros y Hin [<- | []]. contradiction.
Qed.

Lemma mergedTodos_ids (id : string) (updates : Partial.t) (ts : list TodoItem.t) :
  Partial.id updates = None ->
  map TodoItem.id (mergedTodos id updates ts) = map TodoItem.id ts.
Proof.
  intros Hnone. unfold mergedTodos. rewrite map_map. apply map_ext.
  intros t. destruct (TodoItem.id t =? id); [|reflexivity].
  cbn. now rewrite Hnone.
Qed.

(** If the todos of the active list have pairwise different ids and the id
    [uuidv4()] returns next is not one of them, they still have pairwise
    different ids after [createTodo], [deleteTodo] and [duplicateTodo], and
    after an [updateTodo] whose changes do not set the id. *)
Theorem todo_ids_stay_unique (s : Session) (w : World) (rs : list Response)
    (active : TodoList.t) (id : string) (updates : Partial.t) :
  activeList (render s w) = Some active ->
  todoIdsUnique (render s w) ->
  ~ In (uuidv4 w (drawn w)) (map TodoItem.id (todos (render s w))) ->
  todoIdsUnique (render s (perform s handleCreateTodo rs w))
  /\ todoIdsUnique (render s (perform s (fun c => handleDeleteTodo c id) rs w))
  /\ todoIdsUnique (render s (perform s (fun c => handleDuplicateTodo c id) rs w))
  /\ (Partial.id updates = None ->
      todoIdsUnique
        (render s (perform s (fun c => handleUpdateTodo c id updates) rs w))).
Proof.
  intros Hactive Hunique Hfresh. unfold todoIdsUnique in *.
  assert (Hafter : forall uuids ts w',
             syncedWith s w uuids ts w' -> todos (render s w') = ts).
  { intros uuids ts w' Hsynced.
    exact (proj2 (syncedWith_activeList s w uuids ts w' active Hsynced Hactive)). }
  split.
  { rewrite (Hafter _ _ _ (handleCreateTodo_effect s w rs)).
    now apply NoDup_map_snoc. }
  split.
  { rewrite (Hafter _ _ _ (handleDeleteTodo_effect s w rs id)).
    now apply todo_ids_unique_filter. }
  split.
  { destruct (find (fun todo => TodoItem.id todo =? id) (todos (render s w)))
      as [original|] eqn:Hfind.
    - rewrite (Hafter _ _ _ (handleDuplicateTodo_effect s w rs id original Hfind)).
      now apply NoDup_map_snoc.
    - now rewrite handleDuplicateTodo_missing. }
  intros Hnone.
  rewrite (Hafter _ _ _ (handleUpdateTodo_effect s w rs id updates)).
  now rewrite mergedTodos_ids.
Qed.

Lemma todo_ids_stay_unique_witness :
  let w := idle (mkState [listWork; listB] "A" true false) in
  activeList (render anonymous w) = Some listWork
  /\ todoIdsUnique (render anonymous w)
  /\ ~ In (uuidv4 w (drawn w)) (map TodoItem.id (todos (render anonymous w)))
  /\ todoIdsUnique
       (render anonymous (perform anonymous (fun c => handleDuplicateTodo c "t1") [] w)).
Proof.
  intros w.
  assert (H1 : activeList (render anonymous w) = Some listWork) by reflexivity.
  assert (H2 : todoIdsUnique (render anonymous w)).
  { unfold todoIdsUnique. cbn. repeat constructor.
    - intros [H | []]. discriminate H.
    - intros []. }
  assert (H3 : ~ In (uuidv4 w (drawn w))
                    (map TodoItem.id (todos (render anonymous w)))).
  { cbn. intros [H | [H | []]]; discriminate H. }
  split; [exact H1 | split; [exact H2 | split; [exact H3|]]].
  destruct (todo_ids_stay_unique anonymous w [] listWork "t1" completedOnly H1 H2 H3)
    as (_ & _ & Hdup & _).
  exact Hdup.
Defined.

(** With nobody signed in, list ids pairwise different and every created
    list bringing an id the collection does not hold, the list ids are
    pairwise different after any sequence of mutations, and no [createList]
    is left under way. *)
Theorem list_ids_stay_unique (s : Session) (fuel : nat) (ops : list Op)
    (w : World) :
  isSignedIn s = false ->
  isCreatingList (state w) = false ->
  NoDup (listIds (lists (state w))) ->
  freshLists s fuel ops w ->
  NoDup (listIds (lists (state (applyAll s fuel ops w))))
  /\ isCreatingList (state (applyAll s fuel ops w)) = false.
Proof.
  intros Hs. revert w.
  induction ops as [|op ops IH]; intros w Hcre Hnodup Hfresh; [split; assumption|].
  destruct Hfresh as (Hop & Hrest).
  destruct (apply_local s fuel op w Hs Hcre Hnodup Hop) as (_ & Hcre' & Hnodup').
  cbn [applyAll fold_left]. now apply IH.
Qed.

Lemma list_ids_stay_unique_witness :
  let w := idle (mkState [listWork] "A" true false) in
  let ops := [OpCreateList listB; OpCreateTodo; OpDeleteList "A"] in
  isSignedIn anonymous = false
  /\ isCreatingList (state w) = false
  /\ NoDup (listIds (lists (state w)))
  /\ freshLists anonymous 0 ops w
  /\ NoDup (listIds (lists (state (applyAll anonymous 0 ops w)))).
Proof.
  intros w ops.
  assert (H1 : NoDup (listIds (lists (state w)))).
  { repeat constructor. intros []. }
  assert (H2 : freshLists anonymous 0 ops w).
  { repeat split. cbn. intros [H | []]. discriminate H. }
  split; [reflexivity | split; [reflexivity | split; [exact H1 | split; [exact H2|]]]].
  exact (proj1 (list_ids_stay_unique anonymous 0 ops w eq_refl eq_refl H1 H2)).
Defined.

(** ** Repeating an operation *)

Lemma map_rebuild_twice (a : string) (g1 g2 : TodoList.t -> TodoList.t)
    (ls : list TodoList.t) :
  (forall l, TodoList.id (g1 l) = TodoList.id l) ->
  (forall l, g2 (g1 l) = g2 l) ->
  map (fun l => if TodoList.id l =? a then g2 l else l)
      (map (fun l => if TodoList.id l =? a then g1 l else l) ls)
  = map (fun l => if TodoList.id l =? a then g2 l else l) ls.
Proof.
  intros Hid Hlast. rewrite map_map. apply map_ext. intros l.
  destruct (TodoList.id l =? a) eqn:E; [|now rewrite E].
  now rewrite Hid, E, Hlast.
Qed.

Lemma merge_twice (todo : TodoItem.t) (updates : Partial.t) :
  Partial.merge (Partial.merge todo updates) updates = Partial.merge todo updates.
Proof.
  destruct updates as [[i|] [t|] [c|] [l|] [e|]]; reflexivity.
Qed.

Lemma mergedTodos_twice (id : string) (updates : Partial.t) (ts : list TodoItem.t) :
  mergedTodos id updates (mergedTodos id updates ts) = mergedTodos id updates ts.
Proof.
  unfold mergedTodos. rewrite map_map. apply map_ext. intros t.
  destruct (TodoItem.id t =? id) eqn:E; [|now rewrite E].
  destruct (TodoItem.id (Partial.merge t updates) =? id);
    [apply merge_twice | reflexivity].
Qed.

Lemma keptTodos_twice (id : string) (ts : list TodoItem.t) :
  keptTodos id (keptTodos id ts) = keptTodos id ts.
Proof.
  unfold keptTodos. induction ts as [|t ts IH]; [reflexivity|].
  cbn. destruct (TodoItem.id t =? id) eqn:E; cbn; [exact IH|].
  rewrite E. cbn. now rewrite IH.
Qed.

(** The todos of the active list after a handler that rebuilt it from a
    sequence computed by [change]. *)
Lemma syncedWith_todos (s : Session) (w w' : World) (uuids : nat)
    (change : list TodoItem.t -> list TodoItem.t) :
  change [] = [] ->
  syncedWith s w uuids (change (todos (render s w))) w' ->
  todos (render s w') = change (todos (render s w)).
Proof.
  intros Hnil Hsynced.
  destruct (activeList (render s w)) as [active|] eqn:Hactive.
  - exact (proj2 (syncedWith_activeList s w uuids _ w' active Hsynced Hactive)).
  - assert (Htodos : todos (render s w) = []).
    { unfold todos. now rewrite Hactive. }
    rewrite Htodos, Hnil. destruct Hsynced as (Hstate & _).
    unfold todos, activeList. cbn [render seen]. rewrite Hstate.
    unfold rebuilt, mapActive. cbn [setLists lists activeListId render seen].
    rewrite find_rebuild_none by exact Hactive.
    unfold activeList in Hactive. cbn [render seen] in Hactive.
    now rewrite Hactive.
Qed.

(** Calling [updateTodo] twice with the same id and changes, or [deleteTodo]
    twice with the same id, leaves the collection as the first call left it;
    and of two [updateListTitle] calls in a row only the second title
    remains. *)
Theorem repeated_operations (s : Session) (w : World) (id a b : string)
    (updates : Partial.t) :
  let again (handler : Render -> Prog) :=
    lists (state (perform s handler [] (perform s handler [] w)))
    = lists (state (perform s handler [] w)) in
  again (fun c => handleUpdateTodo c id updates)
  /\ again (fun c => handleDeleteTodo c id)
  /\ lists (state (perform s (fun c => updateListTitle c b) []
                     (perform s (fun c => updateListTitle c a) [] w)))
     = lists (state (perform s (fun c => updateListTitle c b) [] w)).
Proof.
  assert (Hagain : forall change once twice,
             change [] = [] ->
             (forall ts, change (change ts) = change ts) ->
             syncedWith s w 0 (change (todos (render s w))) once ->
             syncedWith s once 0 (change (todos (render s once))) twice ->
             lists (state twice) = lists (state once)).
  { intros change once twice Hnil Hidem Honce Htwice.
    rewrite (syncedWith_todos s w once 0 change Hnil Honce), Hidem in Htwice.
    destruct Honce as (Honce & _). destruct Htwice as (Htwice & _).
    rewrite Htwice. unfold rebuilt, mapActive.
    cbn [setLists lists render seen]. rewrite Honce.
    unfold rebuilt, mapActive. cbn [setLists lists activeListId render seen].
    now apply map_rebuild_twice. }
  cbn zeta. split; [|split].
  - apply (Hagain (mergedTodos id updates));
      [reflexivity | apply mergedTodos_twice | apply handleUpdateTodo_effect
       | apply handleUpdateTodo_effect].
  - apply (Hagain (keptTodos id));
      [reflexivity | apply keptTodos_twice | apply handleDeleteTodo_effect
       | apply handleDeleteTodo_effect].
  - set (once := perform s (fun c => updateListTitle c a) [] w).
    destruct (updateListTitle_effect s once [] b) as (-> & _).
    destruct (updateListTitle_effect s w [] b) as (-> & _).
    destruct (updateListTitle_effect s w [] a) as (Honce & _).
    fold once in Honce.
    unfold mapActive. cbn [setLists lists render seen]. rewrite Honce.
    cbn [setLists lists activeListId].
    unfold mapActive. cbn [render seen].
    now apply map_rebuild_twice.
Qed.

(** ** The keyboard *)

Lemma find_fresh_last (id : string) (old : list TodoItem.t) (x : TodoItem.t) :
  ~ In id (map TodoItem.id old) ->
  TodoItem.id x = id ->
  find (fun t => TodoItem.id t =? id) (old ++ [x]) = Some x.
Proof.
  intros Hfresh Hid. induction old as [|t old IH]; cbn.
  - now rewrite Hid, String.eqb_refl.
  - cbn in Hfresh. destruct (TodoItem.id t =? id) eqn:E.
    + apply String.eqb_eq in E. tauto.
    + apply IH. tauto.
Qed.

Lemma keptTodos_fresh_last (id : string) (old : list TodoItem.t) (x : TodoItem.t) :
  ~ In id (map TodoItem.id old) ->
  TodoItem.id x = id ->
  keptTodos id (old ++ [x]) = old.
Proof.
  intros Hfresh Hid. unfold keptTodos. rewrite filter_app. cbn.
  rewrite Hid, String.eqb_refl. cbn. rewrite app_nil_r.
  now apply keptTodos_missing.
Qed.

(** A key other than Enter, and Backspace on a todo that is not in the
    active list or whose title is not empty, changes nothing and does not
    prevent the default action of the key. *)
Theorem keyDown_ignores_other_keys (s : Session) (w : World)
    (rs : list Response) (key id : string) :
  key <> "Enter" ->
  (key = "Backspace" ->
   forall todo, find (fun t => TodoItem.id t =? id) (todos (render s w)) = Some todo ->
                TodoItem.title todo <> EmptyString) ->
  fst (handleKeyDown (render s w) key id) = false
  /\ perform s (fun c => snd (handleKeyDown c key id)) rs w = w.
Proof.
  intros Henter Hback.
  assert (Hnone : handleKeyDown (render s w) key id = (false, Done)).
  { unfold handleKeyDown. apply String.eqb_neq in Henter. rewrite Henter.
    destruct (key =? "Backspace") eqn:E; [|reflexivity].
    apply String.eqb_eq in E.
    destruct (find _ _) as [todo|] eqn:Hfind; [|reflexivity].
    specialize (Hback E todo eq_refl). apply String.eqb_neq in Hback.
    now rewrite Hback. }
  split; [now rewrite Hnone|].
  unfold perform. rewrite Hnone. cbn [snd].
  destruct w. unfold exec. cbn. apply drive_stop.
Qed.

Lemma keyDown_ignores_other_keys_witness :
  let w := idle (mkState [listWork] "A" true false) in
  "Backspace" <> "Enter"
  /\ ("Backspace" = "Backspace" ->
      forall todo,
        find (fun t => TodoItem.id t =? "t1") (todos (render anonymous w)) = Some todo ->
        TodoItem.title todo <> EmptyString)
  /\ perform anonymous (fun c => snd (handleKeyDown c "Backspace" "t1")) [] w = w.
Proof.
  intros w.
  assert (H1 : "Backspace" <> "Enter") by discriminate.
  assert (H2 : "Backspace" = "Backspace" ->
               forall todo,
                 find (fun t => TodoItem.id t =? "t1") (todos (render anonymous w))
                 = Some todo ->
                 TodoItem.title todo <> EmptyString).
  { intros _ todo Hfind. cbn in Hfind. injection Hfind as <-. discriminate. }
  split; [exact H1 | split; [exact H2|]].
  exact (proj2 (keyDown_ignores_other_keys anonymous w [] "Backspace" "t1" H1 H2)).
Defined.

(** Enter on any todo of the active list appends an empty todo; Backspace on
    that new todo, whose id was not in the list before, removes it again:
    the active list is back to what it was.  Both keys prevent the default
    action. *)
Theorem keyDown_enter_then_backspace (s : Session) (w : World)
    (active : TodoList.t) (id : string) :
  activeList (render s w) = Some active ->
  ~ In (uuidv4 w (drawn w)) (map TodoItem.id (TodoList.todos active)) ->
  let uuid := uuidv4 w (drawn w) in
  let w1 := perform s (fun c => snd (handleKeyDown c "Enter" id)) [] w in
  let w2 := perform s (fun c => snd (handleKeyDown c "Backspace" uuid)) [] w1 in
  fst (handleKeyDown (render s w) "Enter" id) = true
  /\ fst (handleKeyDown (render s w1) "Backspace" uuid) = true
  /\ todos (render s w1)
     = TodoList.todos active ++ [TodoItem.mk uuid EmptyString false 0 true]
  /\ todos (render s w2) = TodoList.todos active
  /\ activeList (render s w2) = Some active.
Proof.
  intros Hactive Hfresh uuid w1 w2.
  assert (Htodos : todos (render s w) = TodoList.todos active).
  { unfold todos. now rewrite Hactive. }
  assert (Hw1 : w1 = perform s handleCreateTodo [] w) by reflexivity.
  pose proof (handleCreateTodo_effect s w []) as Heffect1.
  rewrite <- Hw1, Htodos in Heffect1. fold uuid in Heffect1.
  destruct (syncedWith_activeList s w 1 _ w1 active Heffect1 Hactive)
    as (Hactive1 & Htodos1).
  assert (Hfind : find (fun t => TodoItem.id t =? uuid) (todos (render s w1))
                  = Some (emptyTodo uuid)).
  { rewrite Htodos1. now apply find_fresh_last. }
  assert (Hkey : handleKeyDown (render s w1) "Backspace" uuid
                 = (true, handleDeleteTodo (render s w1) uuid)).
  { unfold handleKeyDown. rewrite Hfind. reflexivity. }
  assert (Hw2 : w2 = perform s (fun c => handleDeleteTodo c uuid) [] w1).
  { unfold w2, perform. now rewrite Hkey. }
  pose proof (handleDeleteTodo_effect s w1 [] uuid) as Heffect2.
  rewrite <- Hw2, Htodos1 in Heffect2.
  rewrite keptTodos_fresh_last in Heffect2 by (exact Hfresh || reflexivity).
  destruct (syncedWith_activeList s w1 0 _ w2 _ Heffect2 Hactive1)
    as (Hactive2 & Htodos2).
  split; [reflexivity|].
  split; [now rewrite Hkey|].
  split; [exact Htodos1|].
  split; [exact Htodos2|].
  rewrite Hactive2. now destruct active.
Qed.

Lemma keyDown_enter_then_backspace_witness :
  let w := idle (mkState [listWork; listB] "A" true false) in
  activeList (render anonymous w) = Some listWork
  /\ ~ In (uuidv4 w (drawn w)) (map TodoItem.id (TodoList.todos listWork))
  /\ todos (render anonymous
              (perform anonymous (fun c => snd (handleKeyDown c "Backspace" "u0")) []
                 (perform anonymous (fun c => snd (handleKeyDown c "Enter" "t2")) [] w)))
     = [todoT1; todoT2].
Proof.
  intros w.
  assert (H1 : activeList (render anonymous w) = Some listWork) by reflexivity.
  assert (H2 : ~ In (uuidv4 w (drawn w)) (map TodoItem.id (TodoList.todos listWork))).
  { cbn. intros [H | [H | []]]; discriminate H. }
  split; [exact H1 | split; [exact H2|]].
  destruct (keyDown_enter_then_backspace anonymous w listWork "t2" H1 H2)
    as (_ & _ & _ & Htodos & _).
  exact Htodos.
Defined.

(** ** handleCreateList *)

(** [handleCreateList] from a render that saw a [createList] under way does
    nothing, not even draw an id.  Otherwise it draws an id and creates a
    list named "Untitled List" with no todos: with nobody signed in the list
    is appended after the existing ones, which are unchanged, and becomes
    active; signed in with a client its insert is sent and the collection is
    not touched before the remote store answers. *)
Theorem handleCreateList_outcomes (s : Session) (w : World) (fuel : nat)
    (rs : list Response) :
  let untitled := TodoList.mk (uuidv4 w (drawn w)) "Untitled List" [] in
  let w' := perform s (fun c => handleCreateList c fuel) rs w in
  let waiting := perform s (fun c => handleCreateList c fuel) [] w in
  (isCreatingList (state w) = true -> w' = w)
  /\ (isCreatingList (state w) = false -> isSignedIn s = false ->
      lists (state w') = lists (state w) ++ [untitled]
      /\ activeListId (state w') = TodoList.id untitled
      /\ isCreatingList (state w') = false
      /\ sent w' = sent w /\ pending w' = pending w
      /\ drawn w' = S (drawn w))
  /\ (isCreatingList (state w) = false -> isSignedIn s = true ->
      supabase s = true ->
      lists (state waiting) = lists (state w)
      /\ activeListId (state waiting) = activeListId (state w)
      /\ isCreatingList (state waiting) = true
      /\ sent waiting = sent w ++ [Insert untitled (user s)]).
Proof.
  destruct w as [[ls act ini cre] sn pd co ca gen dr sk], s as [si u cl].
  cbn [state isCreatingList isSignedIn supabase].
  split; [|split].
  - intros ->. run_task. reflexivity.
  - intros -> ->. run_task. repeat split.
  - intros -> -> ->. run_task. repeat split.
Qed.

(** ** The client factory *)

(** Whatever [createClient] does: when the url or the anon key is undefined
    or empty, [createSupabaseClient] throws its own error without calling
    [createClient]; otherwise its outcome is that of one call of
    [createClient], on the url and the key of the environment (both
    non-empty) and on headers that hold Authorization "Bearer <token>" when
    the token is a non-empty string and nothing when the token is undefined,
    null or empty. *)
Theorem createSupabaseClient_outcomes (Client : Type)
    (createClient : ClientOptions -> string + Client)
    (env : Env) (clerkToken : option string) :
  (truthy (VITE_SUPABASE_URL env) = false
   \/ truthy (VITE_SUPABASE_ANON_KEY env) = false ->
   forall other : ClientOptions -> string + Client,
     createSupabaseClient other env clerkToken = inl missingVariables)
  /\ (truthy (VITE_SUPABASE_URL env) = true ->
      truthy (VITE_SUPABASE_ANON_KEY env) = true ->
      exists options,
        createSupabaseClient createClient env clerkToken = createClient options
        /\ VITE_SUPABASE_URL env = Some (supabaseUrl options)
        /\ VITE_SUPABASE_ANON_KEY env = Some (supabaseAnonKey options)
        /\ supabaseUrl options <> EmptyString
        /\ supabaseAnonKey options <> EmptyString
        /\ (headers options = [] <-> truthy clerkToken = false)
        /\ (forall token, clerkToken = Some token -> token <> EmptyString ->
              headers options = [("Authorization", ("Bearer " ++ token)%string)])
        /\ createSupabaseClient createClient env None
           = createClient (mkClientOptions (supabaseUrl options)
                                           (supabaseAnonKey options) [])).
Proof.
  destruct env as [[[|a url]|] [[|b key]|]];
    unfold createSupabaseClient;
    cbn [VITE_SUPABASE_URL VITE_SUPABASE_ANON_KEY truthy negb orb valueOf].
  all: split;
    [first [intros _ other; reflexivity | intros [H | H]; discriminate H]|].
  all: intros Hurl Hkey; try discriminate Hurl; try discriminate Hkey.
  eexists. split; [reflexivity|]. cbn [supabaseUrl supabaseAnonKey headers].
  split; [reflexivity|]. split; [reflexivity|].
  split; [discriminate|]. split; [discriminate|].
  split; [|split; [|reflexivity]].
  - destruct clerkToken as [[|c token]|]; cbn; split; intros H;
      first [reflexivity | discriminate H].
  - intros token -> Hne. destruct token; [contradiction | reflexivity].
Qed.

(** ** A fetch answered late *)

(** The answer to a fetch is applied to the state as it is when the answer
    arrives: whatever the state has become while the request was in flight,
    a non-empty answer replaces the collection by the fetched lists, local
    changes made meanwhile included.  The active list is decided by what the
    fetching render saw: if it saw none, the first fetched list becomes
    active even if a list was selected meanwhile. *)
Theorem late_fetch_answer_overwrites_state (c : Render) (w : World) (fuel : nat)
    (first : TodoList.t) (rest : list TodoList.t) (meanwhile : State) :
  supabase (session c) = true ->
  let asked := run (fetchTodoLists c (S fuel)) w in
  let edited := setState (fun _ => meanwhile) asked in
  let w' := deliver (List.length (pending w)) (rows (first :: rest)) edited in
  sent asked = sent w ++ [Select (user (session c))]
  /\ state asked = state w
  /\ lists (state w') = first :: rest
  /\ activeListId (state w')
     = (if activeListId (seen c) =? EmptyString
        then TodoList.id first else activeListId meanwhile)
  /\ isCreatingList (state w') = isCreatingList meanwhile
  /\ pending w' = pending w.
Proof.
  intros Hclient.
  destruct w as [st sn pd co ca gen dr sk], c as [[si u cl] [ls act ini cre]],
           meanwhile as [ls' act' ini' cre'].
  cbn in Hclient. subst cl.
  world_nf. unfold deliver. world_nf.
  rewrite nth_error_last, removeAt_last. world_nf.
  destruct (act =? EmptyString); world_nf; repeat split.
Qed.

Lemma late_fetch_answer_overwrites_state_witness :
  let w := idle (mkState [listA] EmptyString true false) in
  let c := render (signedInAs "bob") w in
  let edited := mkState [listWork] "A" true false in
  supabase (session c) = true
  /\ lists (state (deliver 0 (rows [listB; listA])
                     (setState (fun _ => edited) (run (fetchTodoLists c 1) w))))
     = [listB; listA].
Proof.
  intros w c edited.
  assert (H : supabase (session c) = true) by reflexivity.
  split; [exact H|].
  destruct (late_fetch_answer_overwrites_state c w 0 listB [listA] edited H)
    as (_ & _ & Hlists & _).
  exact Hlists.
Defined.
